(** * Menu scraper: flattening and column reconciliation

    A shallow embedding of [data-scripts/scrape/scraper.py]: the functions
    [clean_column_name], [organize_columns], [clean_tag_columns],
    [flatten_dict] and [process_menu_data], with the part of Python and of
    pandas they call; then of the item loop of [extract_menu_data], and of
    [parse_cookies_from_string] and [scrape_restaurants] of
    [data-scripts/scrape/scrape_area_restaurants.py].

    Conventions of the model.
    - A Python [str] is a [string]; characters are code points below 256,
      where the regular expression class [\d] is exactly ['0'..'9'].
    - A Python [dict] is an association list in insertion order with
      distinct keys ([py_dict] builds one the way [dict(items)] does).
    - A scalar is [VNull] (None and NaN alike: pandas treats both as
      missing), a boolean, an integer or a string.  Numbers are integers,
      an [int64] and the [float64] of the same value being one number;
      numerals with a fractional part are outside the model.
    - A [DataFrame] is column-major: a row count and a list of labelled
      columns, labels possibly repeated, as in pandas.
    - A Python exception is a value [Raise e] of [result].
    - pandas is the library the script was written for, where
      [pd.to_numeric] still accepts [errors='ignore'] and a sort on several
      keys orders each key through an ordered categorical. *)

From Stdlib Require Import List String Ascii ZArith Bool Arith Lia.
From Stdlib Require Import DecimalString DecimalNat Sorted Permutation.
Import ListNotations.
Local Open Scope string_scope.
Local Open Scope list_scope.

(** String concatenation, kept apart from list concatenation [++]. *)
Local Infix "+:+" := String.append (at level 60, right associativity).

(* ================================================================== *)
(** ** Exceptions *)

Inductive exn : Type :=
| KeyError (label : string)
| TypeError
| ValueError.

Inductive result (A : Type) : Type :=
| Ok (a : A)
| Raise (e : exn).
Arguments Ok {A} a.
Arguments Raise {A} e.

Definition bind {A B : Type} (r : result A) (k : A -> result B) : result B :=
  match r with
  | Ok a => k a
  | Raise e => Raise e
  end.

Notation "x <- r ;; k" := (bind r (fun x => k))
  (at level 61, r at next level, right associativity).

(** [for x in xs: acc = step acc x], stopping at the first exception. *)
Fixpoint foldM {A B : Type} (step : B -> A -> result B) (xs : list A) (acc : B)
  : result B :=
  match xs with
  | [] => Ok acc
  | x :: tl => acc' <- step acc x ;; foldM step tl acc'
  end.

(** [[f(x) for x in xs]], stopping at the first exception. *)
Fixpoint mapM {A B : Type} (f : A -> result B) (xs : list A) : result (list B) :=
  match xs with
  | [] => Ok []
  | x :: tl => y <- f x ;; ys <- mapM f tl ;; Ok (y :: ys)
  end.

(* ================================================================== *)
(** ** Python strings *)

Module Py.

Definition is_digit (c : ascii) : bool :=
  Nat.leb 48 (nat_of_ascii c) && Nat.leb (nat_of_ascii c) 57.

Definition newline : ascii := ascii_of_nat 10.

(** [x in xs] for a list of strings. *)
Definition mem (x : string) (xs : list string) : bool :=
  existsb (String.eqb x) xs.

(** [str(i)] for a non-negative integer. *)
Definition str_of_nat (i : nat) : string :=
  NilEmpty.string_of_uint (Nat.to_uint i).

Fixpoint drop_while {A : Type} (p : A -> bool) (l : list A) : list A :=
  match l with
  | [] => []
  | x :: tl => if p x then drop_while p tl else l
  end.

(** [re.sub(r'_\d+$', '', s)].  [$] matches at the end of the string and
    also just before a newline that ends the string; the pattern can match
    at most once, so the substitution removes that one match.  The function
    works on the reversed string: an optional final newline, then a
    non-empty run of digits, then the underscore. *)
Definition re_sub_digit_suffix (s : string) : string :=
  let cs := rev (list_ascii_of_string s) in
  let '(nl, body) :=
    match cs with
    | c :: r => if Ascii.eqb c newline then ([c], r) else ([], cs)
    | [] => ([], cs)
    end in
  match body with
  | d :: _ =>
      if is_digit d then
        match drop_while is_digit body with
        | u :: rest =>
            if Ascii.eqb u "_"%char
            then string_of_list_ascii (rev rest ++ nl)
            else s
        | [] => s
        end
      else s
  | [] => s
  end.

(** [s.replace(old, new)] for a non-empty [old]: occurrences are replaced
    from left to right without overlap.  [skip] counts the characters of
    an occurrence that are still to be passed over. *)
Fixpoint replace_from (old new : string) (skip : nat) (s : string) : string :=
  match s with
  | EmptyString => EmptyString
  | String c rest =>
      match skip with
      | S k => replace_from old new k rest
      | O =>
          if String.prefix old s
          then new +:+ replace_from old new (String.length old - 1) rest
          else String c (replace_from old new 0 rest)
      end
  end.

Definition replace (old new s : string) : string := replace_from old new 0 s.

(** [re.match(base + r'\d+', s)]: the match is anchored at the start only,
    so [s] matches when it starts with [base] followed by a digit. *)
Definition re_match_indexed (base s : string) : bool :=
  String.prefix base s &&
  match String.get (String.length base) s with
  | Some c => is_digit c
  | None => false
  end.

(** [sep.join(parts)] on strings. *)
Definition join (sep : string) (parts : list string) : string :=
  String.concat sep parts.

End Py.

(* ================================================================== *)
(** ** Scalars, nested records and Python dicts *)

Inductive value : Type :=
| VNull
| VBool (b : bool)
| VInt (z : Z)
| VStr (s : string).

(** Result of [json.loads]: mappings keep the order of their keys. *)
Unset Elimination Schemes.
Inductive json : Type :=
| JScalar (v : value)
| JList (l : list json)
| JDict (d : list (string * json)).
Set Elimination Schemes.

(** Induction on nested records, through the lists they nest. *)
Section JsonInduction.
Variable P : json -> Prop.
Hypothesis Hscalar : forall x, P (JScalar x).
Hypothesis Hlist : forall l, Forall P l -> P (JList l).
Hypothesis Hdict : forall d, Forall (fun kv => P (snd kv)) d -> P (JDict d).

Fixpoint json_ind (v : json) : P v :=
  match v with
  | JScalar x => Hscalar x
  | JList l =>
      Hlist l ((fix all (l : list json) : Forall P l :=
                  match l with
                  | [] => Forall_nil P
                  | e :: tl => Forall_cons e (json_ind e) (all tl)
                  end) l)
  | JDict d =>
      Hdict d ((fix all (d : list (string * json))
                 : Forall (fun kv => P (snd kv)) d :=
                  match d with
                  | [] => Forall_nil _
                  | kv :: tl => Forall_cons kv (json_ind (snd kv)) (all tl)
                  end) d)
  end.
End JsonInduction.

(** [isinstance(item, (dict, list))] *)
Definition is_composite (j : json) : bool :=
  match j with
  | JScalar _ => false
  | _ => true
  end.

Section Dict.
Context {V : Type}.

Definition dict : Type := list (string * V).

Definition keys (d : dict) : list string := map fst d.

(** [d.get(k)] *)
Fixpoint dict_get (k : string) (d : dict) : option V :=
  match d with
  | [] => None
  | (k', v) :: tl => if String.eqb k k' then Some v else dict_get k tl
  end.

(** [d[k] = v]: an existing key keeps its place, a new key goes last. *)
Fixpoint dict_set (kv : string * V) (d : dict) : dict :=
  match d with
  | [] => [kv]
  | (k', v') :: tl =>
      if String.eqb (fst kv) k' then (k', snd kv) :: tl
      else (k', v') :: dict_set kv tl
  end.

Definition dict_update (items : list (string * V)) (d : dict) : dict :=
  fold_left (fun acc kv => dict_set kv acc) items d.

(** [dict(items)] *)
Definition py_dict (items : list (string * V)) : dict := dict_update items [].

(** The value written last under [k] in a list of items. *)
Definition last_written (k : string) (items : list (string * V)) : option V :=
  dict_get k (rev items).
End Dict.
Arguments dict V : clear implicits.

(* ================================================================== *)
(** ** scraper.py: [clean_column_name] *)

Definition clean_column_name (col : string) : string :=
  let col := Py.re_sub_digit_suffix col in
  let col := Py.replace "item_" "" col in
  if String.eqb col "name" then "item_name" else col.

(* ================================================================== *)
(** ** scraper.py: [flatten_dict] *)

(** [f"{parent_key}{sep}{k}" if parent_key else k], with [sep = '_']. *)
Definition new_key_of (parent_key k : string) : string :=
  if String.eqb parent_key "" then k else parent_key +:+ "_" +:+ k.

(** The loop over [enumerate(v)] for a list value: [i] is the index of the
    head of [l]. *)
Fixpoint flatten_list (new_key : string) (i : nat) (l : list json)
  : list (string * value) :=
  match l with
  | [] => []
  | JScalar item :: tl =>
      (new_key +:+ "_" +:+ Py.str_of_nat i, item) :: flatten_list new_key (S i) tl
  | _ :: tl => flatten_list new_key (S i) tl
  end.

(** What one pass of the loop body adds to [items] for the value [v] stored
    under [new_key]. *)
Fixpoint flatten_value (v : json) (new_key : string) {struct v}
  : list (string * value) :=
  match v with
  | JDict d =>
      py_dict (flat_map (fun kv => flatten_value (snd kv) (new_key_of new_key (fst kv))) d)
  | JList l => flatten_list new_key 0 l
  | JScalar x => [(new_key, x)]
  end.

(** The list [items] when the loop over [d.items()] is over. *)
Definition flatten_items (d : list (string * json)) (parent_key : string)
  : list (string * value) :=
  flat_map (fun kv => flatten_value (snd kv) (new_key_of parent_key (fst kv))) d.

Definition flatten_dict (d : list (string * json)) (parent_key : string)
  : dict value :=
  py_dict (flatten_items d parent_key).

(** *** Paths and leaves of a nested record

    The vocabulary of the specification of [flatten_dict]: a leaf is a
    scalar, its path the mapping keys and sequence indices that lead to it
    from the root. *)

Inductive step : Type :=
| Key (k : string)
| Index (i : nat).

Definition under (s : step) (leaf : list step * value) : list step * value :=
  (s :: fst leaf, snd leaf).

Fixpoint leaves (v : json) : list (list step * value) :=
  match v with
  | JScalar x => [([], x)]
  | JList l =>
      (fix elements (i : nat) (l : list json) :=
         match l with
         | [] => []
         | e :: tl => map (under (Index i)) (leaves e) ++ elements (S i) tl
         end) 0 l
  | JDict d => flat_map (fun kv => map (under (Key (fst kv))) (leaves (snd kv))) d
  end.

(** The leaves of a sequence whose first element has index [i]. *)
Definition seq_leaves : nat -> list json -> list (list step * value) :=
  fix elements (i : nat) (l : list json) :=
    match l with
    | [] => []
    | e :: tl => map (under (Index i)) (leaves e) ++ elements (S i) tl
    end.

(** The flat key of a path: the steps joined by underscores.  A mapping key
    is not preceded by a separator when nothing precedes it; an index always
    is. *)
Definition extend_key (prefix : string) (s : step) : string :=
  match s with
  | Key k => if String.eqb prefix "" then k else prefix +:+ "_" +:+ k
  | Index i => prefix +:+ "_" +:+ Py.str_of_nat i
  end.

Definition path_key (prefix : string) (path : list step) : string :=
  fold_left extend_key path prefix.

(** The flat entry of a leaf below the key [prefix]. *)
Definition leaf_entry (prefix : string) (leaf : list step * value)
  : string * value :=
  (path_key prefix (fst leaf), snd leaf).

Definition step_text (s : step) : string :=
  match s with
  | Key k => k
  | Index i => Py.str_of_nat i
  end.

(** No element of a sequence is a mapping or a sequence. *)
Fixpoint scalar_sequences (v : json) : bool :=
  match v with
  | JScalar _ => true
  | JList l => forallb (fun e => negb (is_composite e)) l
  | JDict d => forallb (fun kv => scalar_sequences (snd kv)) d
  end.

(** No mapping key on the way to a leaf is the empty string. *)
Definition named_path (path : list step) : bool :=
  forallb (fun s => match s with Key k => negb (String.eqb k "") | Index _ => true end) path.

(** The entries [p_i -> e] of the elements [e] of a sequence that are
    scalars, [i] being the index of [e] in the sequence. *)
Definition scalar_entries (p : string) (l : list json) : list (string * value) :=
  flat_map (fun ie => match snd ie with
                      | JScalar x => [(p +:+ "_" +:+ Py.str_of_nat (fst ie), x)]
                      | _ => []
                      end)
           (combine (seq 0 (List.length l)) l).

(** A sequence of a mapping, a scalar, a sequence and a scalar. *)
Definition mixed_sequence : list (string * json) :=
  [ ("tags", JList [ JDict [("id", JScalar (VInt 7)); ("slug", JScalar (VStr "new"))];
                     JScalar (VStr "veg");
                     JList [JScalar (VStr "hot")];
                     JScalar (VStr "spicy") ]) ].

(* ================================================================== *)
(** ** pandas: the operations the script calls *)

Record DataFrame : Type := mkDF {
  nrows : nat;
  cols : list (string * list value)
}.

(** [df.columns] *)
Definition columns (df : DataFrame) : list string := map fst (cols df).

(** [Index.duplicated()]: a label is marked when it occurred before. *)
Fixpoint duplicated_from (seen labels : list string) : list bool :=
  match labels with
  | [] => []
  | l :: tl => Py.mem l seen :: duplicated_from (l :: seen) tl
  end.

Definition duplicated (labels : list string) : list bool :=
  duplicated_from [] labels.

(** Selection of the entries of [xs] by a boolean mask. *)
Definition select_mask {A : Type} (mask : list bool) (xs : list A) : list A :=
  map fst (filter snd (combine xs mask)).

(** [pd.DataFrame(records)] for a list of dicts: one row per record, the
    columns are the keys in the order they are first seen, a key a record
    lacks is missing there. *)
Definition DataFrame_of_records (records : list (dict value)) : DataFrame :=
  let seen := flat_map keys records in
  let labels := select_mask (map negb (duplicated seen)) seen in
  let cell l r := match dict_get l r with Some v => v | None => VNull end in
  mkDF (List.length records) (map (fun l => (l, map (cell l) records)) labels).

(** [df.columns = [f(col) for col in df.columns]] *)
Definition rename_columns (f : string -> string) (df : DataFrame) : DataFrame :=
  mkDF (nrows df) (map (fun c => (f (fst c), snd c)) (cols df)).

(** Every column labelled [label], in position order: what [df[label]]
    holds (a Series when there is one, a frame when there are several). *)
Definition columns_named (label : string) (df : DataFrame) : list (list value) :=
  map snd (filter (fun c => String.eqb (fst c) label) (cols df)).

(** The first column labelled [label] ([[]] when there is none). *)
Definition series (label : string) (df : DataFrame) : list value :=
  hd [] (columns_named label df).

(** [df[labels]] for a list of labels that all occur in [df.columns]: each
    label brings every column that carries it. *)
Definition getitem_list (labels : list string) (df : DataFrame) : DataFrame :=
  mkDF (nrows df)
       (flat_map (fun l => filter (fun c => String.eqb (fst c) l) (cols df)) labels).

(** The test of [DataFrame.__setitem__] for its case "Column to set is
    duplicated": the label is borne by [k > 1] columns and the value has
    [k] entries. *)
Definition column_to_set_is_duplicated (label : string) (s : list value)
  (df : DataFrame) : bool :=
  let k := List.length (columns_named label df) in
  Nat.ltb 1 k && Nat.eqb k (List.length s).

(** In that case the value is spread over the columns that bear the label:
    the i-th of them is set to the i-th entry of the value, a scalar, in
    all its [n] rows. *)
Fixpoint set_duplicated (label : string) (n : nat) (s : list value)
  (cs : list (string * list value)) : list (string * list value) :=
  match cs with
  | [] => []
  | c :: tl =>
      if String.eqb (fst c) label then
        match s with
        | v :: s' => (label, repeat v n) :: set_duplicated label n s' tl
        | [] => c :: set_duplicated label n [] tl
        end
      else c :: set_duplicated label n s tl
  end.

(** [df[label] = s] for a Series [s] on the index of [df].  A new label is
    appended.  A label that is borne already has its columns overwritten:
    each of them by [s], unless the column to set is duplicated in the
    sense above, where each gets one entry of [s] as a constant. *)
Definition setitem (label : string) (s : list value) (df : DataFrame) : DataFrame :=
  if Py.mem label (columns df)
  then
    if column_to_set_is_duplicated label s df
    then mkDF (nrows df) (set_duplicated label (nrows df) s (cols df))
    else mkDF (nrows df)
              (map (fun c => if String.eqb (fst c) label then (label, s) else c)
                   (cols df))
  else mkDF (nrows df) (cols df ++ [(label, s)]).

(** [df.drop(columns=labels)] for labels that occur in [df.columns]. *)
Definition drop_columns (labels : list string) (df : DataFrame) : DataFrame :=
  mkDF (nrows df) (filter (fun c => negb (Py.mem (fst c) labels)) (cols df)).

(** [df.loc[:, mask]] *)
Definition loc_columns (mask : list bool) (df : DataFrame) : DataFrame :=
  mkDF (nrows df) (select_mask mask (cols df)).

(** Row [i] of the frame, as [apply(..., axis=1)] hands it to the function. *)
Definition row (df : DataFrame) (i : nat) : list value :=
  map (fun c => nth i (snd c) VNull) (cols df).

(** [df.apply(f, axis=1)] *)
Definition apply_rows (f : list value -> result value) (df : DataFrame)
  : result (list value) :=
  mapM f (map (row df) (seq 0 (nrows df))).

(** *** [pd.to_numeric(s, errors='ignore')]

    [pd.to_numeric] is pandas code.  The model follows it on cells that are
    missing, booleans, integers and strings, and a string is read as a
    number when it is an integer numeral; pandas also reads numerals with a
    fractional part or an exponent and the names of the infinities, as
    floats, which the integers of the model do not hold.  The theorems on
    converted cells therefore take columns whose strings are integer
    numerals or cannot be numerals at all ([plain_cell] below). *)

Fixpoint digits_value (acc : Z) (cs : list ascii) : option Z :=
  match cs with
  | [] => Some acc
  | c :: tl =>
      if Py.is_digit c
      then digits_value (10 * acc + Z.of_nat (nat_of_ascii c - 48)) tl
      else None
  end.

(** White space as the numeral scanner skips it at both ends of the
    string: the space and the characters 9 to 13. *)
Definition is_space (c : ascii) : bool :=
  Nat.eqb (nat_of_ascii c) 32
  || (Nat.leb 9 (nat_of_ascii c) && Nat.leb (nat_of_ascii c) 13).

Definition strip_space (cs : list ascii) : list ascii :=
  rev (Py.drop_while is_space (rev (Py.drop_while is_space cs))).

(** A non-empty run of digits. *)
Definition unsigned_value (cs : list ascii) : option Z :=
  match cs with
  | [] => None
  | _ => digits_value 0 cs
  end.

(** An optional sign and a non-empty run of digits. *)
Definition signed_value (cs : list ascii) : option Z :=
  match cs with
  | c :: tl =>
      if Ascii.eqb c "-"%char then option_map Z.opp (unsigned_value tl)
      else if Ascii.eqb c "+"%char then unsigned_value tl
      else unsigned_value cs
  | [] => None
  end.

(** The integers pandas takes from a numeral: from the least [int64] to the
    greatest [uint64]; beyond, the conversion raises ("Integer out of
    range"). *)
Definition int64_min : Z := - 2 ^ 63.
Definition uint64_max : Z := 2 ^ 64 - 1.

Definition in_integer_range (z : Z) : bool :=
  Z.leb int64_min z && Z.leb z uint64_max.

(** The integer a string denotes: white space, an optional sign, a
    non-empty run of digits, white space; the integer within range. *)
Definition parse_integer (s : string) : option Z :=
  match signed_value (strip_space (list_ascii_of_string s)) with
  | Some z => if in_integer_range z then Some z else None
  | None => None
  end.

(** What one cell converts to, [None] when it does not parse.  Missing
    values stay missing, the empty string converts to a missing value,
    numbers and booleans are kept. *)
Definition numeric_cell (v : value) : option value :=
  match v with
  | VStr s =>
      if String.eqb s "" then Some VNull else option_map VInt (parse_integer s)
  | _ => Some v
  end.

Fixpoint all_numeric (s : list value) : option (list value) :=
  match s with
  | [] => Some []
  | v :: tl =>
      match numeric_cell v, all_numeric tl with
      | Some n, Some ns => Some (n :: ns)
      | _, _ => None
      end
  end.

Definition is_bool (v : value) : bool :=
  match v with VBool _ => true | _ => false end.

Definition bool_to_int (v : value) : value :=
  match v with VBool b => VInt (Z.b2z b) | _ => v end.

(** The conversion is per column: when one cell does not parse, the
    [ValueError] is swallowed and the argument is returned as it came.  A
    converted column of booleans stays boolean; mixed with anything else the
    booleans become 0 and 1.  Integers are kept as they are whatever their
    size; pandas rounds those beyond 2^53 when the column becomes floats,
    and leaves a column that mixes negative integers with integers above
    the [int64] range, so [plain_cell] below stops at 2^53. *)
Definition to_numeric (s : list value) : list value :=
  match all_numeric s with
  | None => s
  | Some ns => if forallb is_bool ns then ns else map bool_to_int ns
  end.










(** *** [df.sort_values(by)] with several keys *)

Definition sort_rank (v : value) : nat :=
  match v with
  | VNull => 2
  | VStr _ => 1
  | _ => 0
  end.

Definition number_of (v : value) : Z :=
  match v with
  | VInt z => z
  | VBool b => Z.b2z b
  | _ => 0
  end.

(** Order of the categories of a key column: numbers by value, then strings
    by code points, missing values last. *)
Definition value_compare (a b : value) : comparison :=
  match a, b with
  | VStr s, VStr t => String.compare s t
  | _, _ =>
      match Nat.compare (sort_rank a) (sort_rank b) with
      | Eq => Z.compare (number_of a) (number_of b)
      | c => c
      end
  end.

Fixpoint keys_compare (k1 k2 : list value) : comparison :=
  match k1, k2 with
  | a :: t1, b :: t2 =>
      match value_compare a b with
      | Eq => keys_compare t1 t2
      | c => c
      end
  | [], [] => Eq
  | [], _ :: _ => Lt
  | _ :: _, [] => Gt
  end.

Definition keys_le (k1 k2 : list value) : bool :=
  match keys_compare k1 k2 with
  | Gt => false
  | _ => true
  end.

Fixpoint insert {A : Type} (le : A -> A -> bool) (x : A) (l : list A) : list A :=
  match l with
  | [] => [x]
  | y :: tl => if le x y then x :: l else y :: insert le x tl
  end.

(** A stable sort: an element goes in front of the later elements that
    compare equal to it. *)
Definition stable_sort {A : Type} (le : A -> A -> bool) (l : list A) : list A :=
  fold_right (insert le) [] l.

(** [df.take(order)]: the rows at the positions [order], in that order. *)
Definition take (order : list nat) (df : DataFrame) : DataFrame :=
  mkDF (List.length order)
       (map (fun c => (fst c, map (fun i => nth i (snd c) VNull) order)) (cols df)).

(** The key column for one label of [by]. *)
Definition key_column (df : DataFrame) (label : string) : result (list value) :=
  match columns_named label df with
  | [] => Raise (KeyError label)
  | [s] => Ok s
  | _ => Raise ValueError
  end.

Definition row_key (key_cols : list (list value)) (i : nat) : list value :=
  map (fun s => nth i s VNull) key_cols.

Definition sort_values (by_ : list string) (df : DataFrame) : result DataFrame :=
  key_cols <- mapM (key_column df) by_ ;;
  let le i j := keys_le (row_key key_cols i) (row_key key_cols j) in
  Ok (take (stable_sort le (seq 0 (nrows df))) df).


(** The order in which [sort_values] takes the rows. *)
Definition sort_order (by_ : list string) (df : DataFrame) : list nat :=
  let key i := map (fun l => nth i (series l df) VNull) by_ in
  stable_sort (fun i j => keys_le (key i) (key j)) (seq 0 (nrows df)).


(* ================================================================== *)
(** ** scraper.py: [organize_columns] *)

Definition priority_cols : list string :=
  [ "category"; "item_name"; "price"; "desc"; "dietary_slugs";
    "rating_value"; "rating_total_rating_text"; "item_state";
    "tag_slugs"; "service_slugs" ].

Definition organize_columns (df : DataFrame) : DataFrame :=
  let existing_priority_cols :=
    filter (fun col => Py.mem col (columns df)) priority_cols in
  let other_cols :=
    filter (fun col => negb (Py.mem col existing_priority_cols)) (columns df) in
  getitem_list (existing_priority_cols ++ other_cols) df.

(* ================================================================== *)
(** ** scraper.py: [clean_tag_columns] *)

(** The new column and the literal part of its pattern [<literal>\d+]. *)
Definition tag_patterns : list (string * string) :=
  [ ("tag_slugs", "tag_slugs_");
    ("service_slugs", "service_slugs_");
    ("dietary_slugs", "dietary_slugs_") ].

Definition notna (v : value) : bool :=
  match v with VNull => false | _ => true end.

(** Python truth value, as [filter(None, ...)] tests it. *)
Definition truthy (v : value) : bool :=
  match v with
  | VNull => false
  | VBool b => b
  | VInt z => negb (Z.eqb z 0)
  | VStr s => negb (String.eqb s "")
  end.

(** [str.join] accepts strings only. *)
Definition as_str (v : value) : result string :=
  match v with
  | VStr s => Ok s
  | _ => Raise TypeError
  end.

(** [lambda x: ', '.join(filter(None, x.dropna()))] *)
Definition join_row (x : list value) : result value :=
  parts <- mapM as_str (filter truthy (filter notna x)) ;;
  Ok (VStr (Py.join ", " parts)).

Definition matching_cols (base : string) (df : DataFrame) : list string :=
  filter (Py.re_match_indexed base) (columns df).



(** The label is borne by several columns, as many as the frame has rows:
    an assignment [df[label] = s] of a Series on the index of [df] then
    finds the column to set duplicated. *)
Definition duplicated_as_rows (label : string) (df : DataFrame) : bool :=
  let k := List.length (columns_named label df) in
  Nat.ltb 1 k && Nat.eqb k (nrows df).

(** One pass of the loop over [tag_patterns]. *)
Definition collapse_group (df : DataFrame) (group : string * string)
  : result DataFrame :=
  let '(new_col, base) := group in
  match matching_cols base df with
  | [] => Ok df
  | matching =>
      s <- apply_rows join_row (getitem_list matching df) ;;
      Ok (drop_columns matching (setitem new_col s df))
  end.

Definition clean_tag_columns (df : DataFrame) : result DataFrame :=
  foldM collapse_group tag_patterns df.

(* ================================================================== *)
(** ** scraper.py: [process_menu_data] *)

Definition numeric_cols : list string :=
  [ "price"; "rating_value"; "min_price"; "max_price";
    "default_price"; "display_price" ].

Definition cols_to_drop : list string :=
  [ "fb_slug"; "name_slug"; "item_metadata"; "tracking_dish_type";
    "item_tag_image"; "tag_images"; "tag_texts"; "tag_objects" ].

(** One pass of the loop over [numeric_cols].  With a repeated label
    [df[col]] is a frame, which [pd.to_numeric] refuses with a [TypeError]
    whatever [errors] says. *)
Definition convert_numeric_col (df : DataFrame) (col : string) : result DataFrame :=
  if Py.mem col (columns df) then
    match columns_named col df with
    | [s] => Ok (setitem col (to_numeric s) df)
    | _ => Raise TypeError
    end
  else Ok df.

Definition convert_numeric (df : DataFrame) : result DataFrame :=
  foldM convert_numeric_col numeric_cols df.



(** No label of [numeric_cols] is borne by two columns. *)
Definition single_numeric_cols (df : DataFrame) : bool :=
  forallb (fun col => Nat.leb (List.length (columns_named col df)) 1) numeric_cols.

(** [df.loc[:, ~df.columns.duplicated()]] *)
Definition drop_duplicate_columns (df : DataFrame) : DataFrame :=
  loc_columns (map negb (duplicated (columns df))) df.

(** The frame after renaming. *)
Definition renamed (df : DataFrame) : DataFrame :=
  rename_columns clean_column_name df.

(** No column label matches the pattern of an indexed group. *)
Definition no_indexed_cols (df : DataFrame) : bool :=
  forallb (fun g => match matching_cols (snd g) df with [] => true | _ => false end)
          tag_patterns.

(** The frame as it is handed to [sort_values]. *)
Definition prepare (df : DataFrame) : result DataFrame :=
  let df := rename_columns clean_column_name df in
  df <- convert_numeric df ;;
  df <- clean_tag_columns df ;;
  let df := drop_duplicate_columns df in
  let df := organize_columns df in
  Ok (drop_columns (filter (fun col => Py.mem col (columns df)) cols_to_drop) df).

Definition process_menu_data (df : DataFrame) : result DataFrame :=
  df <- prepare df ;;
  sort_values ["category"; "price"] df.

(** The reconciler of a record batch: the frame built from the flat records
    (in [extract_menu_data]) handed to [process_menu_data] (in [save_menu]). *)
Definition reconcile (batch : list (dict value)) : result DataFrame :=
  process_menu_data (DataFrame_of_records batch).

(* ================================================================== *)
(** ** Record batches used below *)

(** The two dishes of the end-to-end scenario, and the table expected. *)
Definition two_dishes : list (dict value) :=
  [ [("category", VStr "Starters"); ("price", VStr "150"); ("name", VStr "Soup")];
    [("category", VStr "Mains"); ("price", VStr "80"); ("name", VStr "Rice")] ].

Definition two_dishes_sorted : DataFrame :=
  mkDF 2 [ ("category", [VStr "Mains"; VStr "Starters"]);
           ("item_name", [VStr "Rice"; VStr "Soup"]);
           ("price", [VInt 80; VInt 150]) ].

(** One dish with an indexed group of three tags, the last one empty. *)
Definition tagged_dish : list (dict value) :=
  [ [("category", VStr "Mains"); ("price", VStr "80");
     ("tag_slugs_0", VStr "veg"); ("tag_slugs_1", VStr "spicy");
     ("tag_slugs_2", VStr "")] ].

(** One dish whose record has two keys that are both renamed to [price]. *)
Definition two_prices : list (dict value) :=
  [ [("category", VStr "Mains"); ("price", VStr "80"); ("item_price", VStr "95")] ].


(** A number in a column whose label matches [tag_slugs_\d+] after
    renaming. *)
Definition numeric_in_group : list (dict value) :=
  [ [("category", VStr "Mains"); ("price", VStr "80"); ("tag_slugs_0_id", VInt 7)] ].

(** A nested record: a mapping in a mapping, and a sequence of scalars. *)
Definition nested_dish : list (string * json) :=
  [ ("rating", JDict [("value", JScalar (VStr "4.1")); ("votes", JScalar (VInt 12))]);
    ("tag_slugs", JList [JScalar (VStr "veg"); JScalar (VStr "spicy")]);
    ("name", JScalar (VStr "Rice")) ].

(** A batch without any category. *)
Definition no_category : list (dict value) :=
  [ [("price", VStr "80"); ("name", VStr "Rice")] ].



(* ================================================================== *)
(** ** Further vocabulary for the properties of scraper.py *)

(** A flat record seen as a nested record: every value is a scalar leaf. *)
Definition lift_record (r : dict value) : list (string * json) :=
  map (fun kv => (fst kv, JScalar (snd kv))) r.

(** The strings of a row that are not empty, in the order of the row. *)
Definition nonempty_strings (x : list value) : list string :=
  flat_map (fun v => match v with
                     | VStr s => if String.eqb s "" then [] else [s]
                     | _ => []
                     end) x.

(** A cell that holds a string or is missing. *)
Definition str_or_missing (v : value) : Prop :=
  v = VNull \/ exists s, v = VStr s.

(** The cells that the pass of a group reads in row [i]: the row of
    [df[matching_cols]]. *)
Definition group_cells (base : string) (df : DataFrame) (i : nat) : list value :=
  row (getitem_list (matching_cols base df) df) i.

(** Priority labels first, the others behind, in a list of labels. *)
Definition priority_first (labels : list string) : Prop :=
  labels = filter (fun col => Py.mem col labels) priority_cols
           ++ filter (fun col => negb (Py.mem col priority_cols)) labels.

(** A cell that [str.join] refuses: it is neither missing nor false in
    Python's sense, and it is not a string. *)
Definition refused (v : value) : bool :=
  match v with
  | VInt z => negb (Z.eqb z 0)
  | VBool b => b
  | _ => false
  end.

(** A cell of the columns matched by one of the three groups is refused
    by [str.join]. *)
Definition refused_group_cell (df : DataFrame) : bool :=
  existsb (fun g => existsb (fun i => existsb refused (group_cells (snd g) df i))
                            (seq 0 (nrows df)))
          tag_patterns.










(* ================================================================== *)
(** ** Python values at run time

    The code below the JSON parsers works on whatever [json.loads] and
    [response.json()] return.  Subscripting, iteration and method calls
    are defined on every value; on a value of the wrong type Python raises,
    and so does the model. *)

Inductive py_exn : Type :=
| PyKeyError (key : string)
| PyTypeError
| PyAttributeError
| PyIndexError.

Inductive outcome (A : Type) : Type :=
| Done (a : A)
| Fail (e : py_exn).
Arguments Done {A} a.
Arguments Fail {A} e.

Definition and_then {A B : Type} (r : outcome A) (k : A -> outcome B) : outcome B :=
  match r with
  | Done a => k a
  | Fail e => Fail e
  end.

Notation "x <~ r ;; k" := (and_then r (fun x => k))
  (at level 61, r at next level, right associativity).

(** A loop that builds a list, abandoned at the first exception. *)
Fixpoint traverse {A B : Type} (f : A -> outcome B) (xs : list A) : outcome (list B) :=
  match xs with
  | [] => Done []
  | x :: tl => y <~ f x ;; ys <~ traverse f tl ;; Done (y :: ys)
  end.

(** [v[key]] for a string [key]: only a mapping can be subscripted by a
    string. *)
Definition getitem (key : string) (v : json) : outcome json :=
  match v with
  | JDict d =>
      match dict_get key d with
      | Some x => Done x
      | None => Fail (PyKeyError key)
      end
  | _ => Fail PyTypeError
  end.

(** [key in v] for a mapping [v]. *)
Definition has_key (key : string) (d : list (string * json)) : bool :=
  match dict_get key d with Some _ => true | None => false end.

(** The characters of a string, as iteration over it yields them. *)
Definition chars (s : string) : list json :=
  map (fun c => JScalar (VStr (String c ""))) (list_ascii_of_string s).

(** [for x in v]: the elements of a list, the keys of a mapping, the
    characters of a string; other values are not iterable. *)
Definition iterate (v : json) : outcome (list json) :=
  match v with
  | JList l => Done l
  | JDict d => Done (map (fun kv => JScalar (VStr (fst kv))) d)
  | JScalar (VStr s) => Done (chars s)
  | JScalar _ => Fail PyTypeError
  end.

(* ================================================================== *)
(** ** scraper.py: [extract_menu_data], from the parsed state on *)

(** [list(v.keys())[0]] *)
Definition first_key (v : json) : outcome string :=
  match v with
  | JDict [] => Fail PyIndexError
  | JDict ((k, _) :: _) => Done k
  | _ => Fail PyAttributeError
  end.

(** Lines 89-91: the menus of the first restaurant of the state. *)
Definition menu_data_of_state (preloaded_state : json) : outcome json :=
  pages <~ getitem "pages" preloaded_state ;;
  current <~ getitem "current" pages ;;
  restaurant_data <~ getitem "restaurant" current ;;
  restaurant_id <~ first_key restaurant_data ;;
  restaurant <~ getitem restaurant_id restaurant_data ;;
  order <~ getitem "order" restaurant ;;
  menu_list <~ getitem "menuList" order ;;
  getitem "menus" menu_list.

(** [flatten_dict(v)]: the call needs [v.items()]. *)
Definition flatten_item (v : json) : outcome (list (string * json)) :=
  match v with
  | JDict d => Done (lift_record (flatten_dict d ""))
  | _ => Fail PyAttributeError
  end.

(** Lines 101-105 for one [item_data]. *)
Definition item_row (category_name : json) (item_data : json)
  : outcome (list (string * json)) :=
  item <~ getitem "item" item_data ;;
  flat_item <~ flatten_item item ;;
  Done (dict_set ("category", category_name) flat_item).

(** Lines 98-105 for one [category]. *)
Definition category_rows (category_name : json) (category : json)
  : outcome (list (list (string * json))) :=
  inner <~ getitem "category" category ;;
  items <~ getitem "items" inner ;;
  item_datas <~ iterate items ;;
  traverse (item_row category_name) item_datas.

(** Lines 96-105 for one [menu_section]. *)
Definition section_rows (menu_section : json)
  : outcome (list (list (string * json))) :=
  menu <~ getitem "menu" menu_section ;;
  category_name <~ getitem "name" menu ;;
  menu <~ getitem "menu" menu_section ;;
  categories <~ getitem "categories" menu ;;
  categories <~ iterate categories ;;
  rows <~ traverse (category_rows category_name) categories ;;
  Done (List.concat rows).

(** Lines 94-105: [all_items] when the loops are over.  An exception
    leaves the function, and the items collected so far with it. *)
Definition extract_items (menu_data : json) : outcome (list (list (string * json))) :=
  sections <~ iterate menu_data ;;
  rows <~ traverse section_rows sections ;;
  Done (List.concat rows).

(** [item_data] is met by the loops in the section [menu_section]: it is
    an element of [category['category']['items']] for an element
    [category] of [menu_section['menu']['categories']]. *)
Definition item_of_section (menu_section item_data : json) : Prop :=
  exists menu cs categories category inner items item_datas,
    getitem "menu" menu_section = Done menu /\
    getitem "categories" menu = Done cs /\ iterate cs = Done categories /\
    In category categories /\
    getitem "category" category = Done inner /\
    getitem "items" inner = Done items /\ iterate items = Done item_datas /\
    In item_data item_datas.

(** [menu_section['menu']['name']] *)
Definition name_of_section (menu_section : json) : outcome json :=
  menu <~ getitem "menu" menu_section ;;
  getitem "name" menu.

(** One section with one category of one item, which has a [category] of
    its own. *)
Definition rice_item : json :=
  JDict [ ("item", JDict [ ("name", JScalar (VStr "Rice"));
                           ("category", JScalar (VStr "misc")) ]) ].

Definition mains_section : json :=
  JDict [ ("menu", JDict [
    ("name", JScalar (VStr "Mains"));
    ("categories", JList [ JDict [ ("category", JDict [
       ("items", JList [ rice_item ]) ]) ] ]) ]) ].

Definition one_item_menu : json := JList [ mains_section ].

(* ================================================================== *)
(** ** Python strings, continued *)

Module PyStr.

(** The double quote character. *)
Definition quote : ascii := ascii_of_nat 34.

(** [sub in s] *)
Fixpoint contains (sub s : string) : bool :=
  String.prefix sub s ||
  match s with
  | EmptyString => false
  | String _ rest => contains sub rest
  end.

(** [s.split(sep)] for a non-empty [sep]: the pieces between the
    occurrences of [sep], found from left to right without overlap.  The
    first piece of the result is the one being read; [skip] counts the
    characters of an occurrence still to pass over. *)
Fixpoint split_from (sep : string) (skip : nat) (s : string) : list string :=
  match s with
  | EmptyString => [EmptyString]
  | String c rest =>
      match skip with
      | S k => split_from sep k rest
      | O =>
          if String.prefix sep s
          then EmptyString :: split_from sep (String.length sep - 1) rest
          else match split_from sep 0 rest with
               | piece :: pieces => String c piece :: pieces
               | [] => [String c EmptyString]
               end
      end
  end.

Definition split (sep s : string) : list string := split_from sep 0 s.

Fixpoint drop (n : nat) (s : string) : string :=
  match n, s with
  | S k, String _ rest => drop k rest
  | _, _ => s
  end.

(** [s.split(sep, 1)] when [sep] occurs in [s]: what is before the first
    occurrence and what is after it; [None] when [sep] does not occur. *)
Fixpoint split_once (sep s : string) : option (string * string) :=
  if String.prefix sep s then Some (EmptyString, drop (String.length sep) s)
  else match s with
       | EmptyString => None
       | String c rest =>
           match split_once sep rest with
           | Some (before, after) => Some (String c before, after)
           | None => None
           end
       end.

(** [s.strip(c)] for one character [c]: every [c] at the start and at the
    end is removed. *)
Definition strip (c : ascii) (s : string) : string :=
  let is_c x := Ascii.eqb x c in
  let left := Py.drop_while is_c (list_ascii_of_string s) in
  string_of_list_ascii (rev (Py.drop_while is_c (rev left))).

End PyStr.

(* ================================================================== *)
(** ** scrape_area_restaurants.py: [parse_cookies_from_string] *)

(** One pass of the loop over the pieces of the cookie string.  The
    unpacking of [cookie.split('=', 1)] cannot fail: the test before it
    found an ['=']. *)
Definition parse_cookie (cookies : dict string) (cookie : string) : dict string :=
  if PyStr.contains "=" cookie then
    match PyStr.split_once "=" cookie with
    | Some (name, value) => dict_set (name, PyStr.strip PyStr.quote value) cookies
    | None => cookies
    end
  else cookies.

Definition parse_cookies_from_string (cookie_string : string) : dict string :=
  fold_left parse_cookie (PyStr.split "; " cookie_string) [].

(** A cookie as it stands in the header: [name=value]. *)
Definition cookie_text (cookie : string * string) : string :=
  fst cookie +:+ "=" +:+ snd cookie.

(** A cookie that the header format can carry as it is: no ['='] in the
    name, no ["; "] in the text, and a value without quotes at its ends. *)
Definition plain_cookie (cookie : string * string) : Prop :=
  PyStr.contains "=" (fst cookie) = false /\
  PyStr.contains "; " (cookie_text cookie) = false /\
  PyStr.strip PyStr.quote (snd cookie) = snd cookie.

(* ================================================================== *)
(** ** scrape_area_restaurants.py: [ZomatoScraper.scrape_restaurants]

    The requests are the part of the world the method talks to: [fetch]
    gives, for a page number, the decoded body of the response, or [None]
    when [requests.post] or [response.json()] raises.  What the method
    prints is left out.  Every exception raised while a page is handled is
    caught by the [except Exception] of the loop, which breaks. *)

Record restaurant_info : Type := mkRestaurant {
  r_name : json;
  r_url : string;
  r_rating : json;
  r_cuisine : list json;
  r_cost_for_two : json;
  r_address : json
}.

Definition not_available : json := JScalar (VStr "N/A").

Section ScrapeRestaurants.

(** [str(v)], as the f-string of the url applies it. *)
Variable format_value : json -> string.

(** [d.get(key, default)] on a value [v]; only a mapping has [get]. *)
Definition get_or (key : string) (default : json) (v : json) : outcome json :=
  match v with
  | JDict d =>
      match dict_get key d with
      | Some x => Done x
      | None => Done default
      end
  | _ => Fail PyAttributeError
  end.

(** Lines 167-174: the dict appended for one [info].  The first
    subscript, [info['name']], raises unless [info] is a mapping, so the
    membership tests that follow are tests on the keys of a mapping. *)
Definition restaurant_record (info : json) : outcome restaurant_info :=
  match info with
  | JDict d =>
      name <~ getitem "name" info ;;
      locality <~ getitem "locality" info ;;
      locality_url <~ getitem "localityUrl" locality ;;
      rating <~ (if has_key "rating" d
                 then rating <~ getitem "rating" info ;;
                      getitem "aggregate_rating" rating
                 else Done not_available) ;;
      cuisine <~ (if has_key "cuisine" d
                  then cuisine <~ getitem "cuisine" info ;;
                       cs <~ iterate cuisine ;;
                       traverse (getitem "name") cs
                  else Done []) ;;
      cft <~ get_or "cft" (JDict []) info ;;
      cost_for_two <~ get_or "text" not_available cft ;;
      address <~ (if has_key "locality" d
                  then locality <~ getitem "locality" info ;;
                       getitem "address" locality
                  else Done not_available) ;;
      Done (mkRestaurant name
                         ("https://www.zomato.com" +:+ format_value locality_url)
                         rating cuisine cost_for_two address)
  | _ => Fail PyTypeError
  end.

(** [restaurant['type'] == 'restaurant'] *)
Definition is_restaurant_type (v : json) : bool :=
  match v with
  | JScalar (VStr s) => String.eqb s "restaurant"
  | _ => false
  end.

(** Lines 165-174 for one element of the search results: the record to
    append, if any. *)
Definition visit (restaurant : json) : outcome (option restaurant_info) :=
  type <~ getitem "type" restaurant ;;
  if is_restaurant_type type then
    info <~ getitem "info" restaurant ;;
    record <~ restaurant_record info ;;
    Done (Some record)
  else Done None.

(** The loop of lines 164-174 on [all_restaurants].  The flag tells
    whether the loop came to its end; when an element raises, what was
    appended before stays appended. *)
Fixpoint collect (restaurants : list json) (all_restaurants : list restaurant_info)
  : list restaurant_info * bool :=
  match restaurants with
  | [] => (all_restaurants, true)
  | restaurant :: tl =>
      match visit restaurant with
      | Done (Some record) => collect tl (all_restaurants ++ [record])
      | Done None => collect tl all_restaurants
      | Fail _ => (all_restaurants, false)
      end
  end.

(** Lines 159-163: the search results of a response, [None] when the loop
    breaks there.  The loop goes on only when [data] is a mapping whose
    [sections] is a mapping with the key [SECTION_SEARCH_RESULT]; in every
    other case either the test of line 159 holds, or the test or the
    subscripts of line 163 raise, and the loop breaks all the same. *)
Definition search_results (data : json) : option json :=
  match data with
  | JDict d =>
      match dict_get "sections" d with
      | Some (JDict sections) => dict_get "SECTION_SEARCH_RESULT" sections
      | _ => None
      end
  | _ => None
  end.

(** Lines 159-177 for the response of one page. *)
Definition scrape_page (data : json) (all_restaurants : list restaurant_info)
  : list restaurant_info * bool :=
  match search_results data with
  | None => (all_restaurants, false)
  | Some restaurants =>
      match iterate restaurants with
      | Fail _ => (all_restaurants, false)
      | Done rs => collect rs all_restaurants
      end
  end.

(** The loop over [range(1, max_pages + 1)], from [page] on, with
    [pages_left] pages to go. *)
Fixpoint scrape_from (fetch : nat -> option json) (page pages_left : nat)
  (all_restaurants : list restaurant_info) : list restaurant_info :=
  match pages_left with
  | O => all_restaurants
  | S n =>
      match fetch page with
      | None => all_restaurants
      | Some data =>
          let '(all_restaurants, go_on) := scrape_page data all_restaurants in
          if go_on then scrape_from fetch (S page) n all_restaurants
          else all_restaurants
      end
  end.

Definition scrape_restaurants (fetch : nat -> option json) (max_pages : Z)
  : list restaurant_info :=
  scrape_from fetch 1 (Z.to_nat max_pages) [].

(** The page is one at which the loop breaks without a restaurant
    appended: the request fails or the response has no search results. *)
Definition dead_page (fetch : nat -> option json) (page : nat) : Prop :=
  match fetch page with
  | None => True
  | Some data => search_results data = None
  end.

End ScrapeRestaurants.

(** The formatting used in the examples below, where every url is a
    string: [str()] on the scalars of JSON, a string being left as it is.
    For a list or a mapping [str()] gives its [repr], which is not
    modelled; no example formats one. *)
Definition format_string (v : json) : string :=
  match v with
  | JScalar (VStr s) => s
  | JScalar (VInt z) => NilZero.string_of_int (Z.to_int z)
  | JScalar (VBool true) => "True"
  | JScalar (VBool false) => "False"
  | JScalar VNull => "None"
  | JList _ | JDict _ => ""
  end.

(** A search result with the least a restaurant needs, and one of another
    type. *)
Definition plain_restaurant : json :=
  JDict [ ("type", JScalar (VStr "restaurant"));
          ("info", JDict [
             ("name", JScalar (VStr "Udupi"));
             ("locality", JDict [
                ("localityUrl", JScalar (VStr "/mangalore/udupi"));
                ("address", JScalar (VStr "Car Street")) ]) ]) ].

Definition banner : json :=
  JDict [ ("type", JScalar (VStr "banner")) ].

Definition page_of (results : list json) : json :=
  JDict [ ("sections", JDict [ ("SECTION_SEARCH_RESULT", JList results) ]) ].

(** The record of [plain_restaurant]. *)
Definition plain_record : restaurant_info :=
  mkRestaurant (JScalar (VStr "Udupi"))
               "https://www.zomato.com/mangalore/udupi"
               not_available [] not_available
               (JScalar (VStr "Car Street")).

(** A server with two pages of results and nothing after them. *)
Definition two_pages (page : nat) : option json :=
  if Nat.leb page 2 then Some (page_of [banner; plain_restaurant]) else None.

(* ================================================================== *)
(** * Properties *)

Ltac eqb_cases :=
  match goal with
  | |- context [String.eqb ?a ?b] => destruct (String.eqb_spec a b)
  end.

Ltac each_group H :=
  simpl in H; destruct H as [H|[H|[H|[]]]]; subst.

(** ** Column names *)

Lemma clean_column_name_name : clean_column_name "name" = "item_name".
Proof. reflexivity. Qed.

Lemma clean_column_name_item_price_3 : clean_column_name "item_price_3" = "price".
Proof. vm_compute. reflexivity. Qed.

(** C6.  The token [item_] is removed wherever it occurs, not only at the
    start of the name: [menu_item_id] is renamed to [menu_id], although
    [item_] is not a prefix of it. *)
Theorem clean_column_name_inner_token :
  String.prefix "item_" "menu_item_id" = false /\
  clean_column_name "menu_item_id" = "menu_id".
Proof. split; vm_compute; reflexivity. Qed.

(** ** Flattening *)

Lemma flatten_value_dict d key : flatten_value (JDict d) key = flatten_dict d key.
Proof. reflexivity. Qed.

Lemma flatten_list_app new_key l1 l2 i :
  flatten_list new_key i (l1 ++ l2) =
  flatten_list new_key i l1 ++ flatten_list new_key (i + List.length l1) l2.
Proof.
  revert i; induction l1 as [|e l1 IH]; intro i; simpl.
  - now rewrite Nat.add_0_r.
  - replace (i + S (List.length l1)) with (S i + List.length l1) by lia.
    destruct e; simpl; now rewrite IH.
Qed.

Lemma flatten_items_app d1 d2 parent :
  flatten_items (d1 ++ d2) parent = flatten_items d1 parent ++ flatten_items d2 parent.
Proof. unfold flatten_items. apply flat_map_app. Qed.

(** *** Facts on Python dicts *)


Section DictFacts.
Context {V : Type}.
Implicit Types (d acc : dict V) (items : list (string * V)) (kv : string * V).

Lemma dict_update_app items1 items2 d :
  dict_update (items1 ++ items2) d = dict_update items2 (dict_update items1 d).
Proof. unfold dict_update. apply fold_left_app. Qed.

Lemma dict_set_absent kv d :
  ~ In (fst kv) (keys d) -> dict_set kv d = d ++ [kv].
Proof.
  induction d as [|[k' v'] d IH]; simpl; intro Hn; [reflexivity|].
  destruct (String.eqb_spec (fst kv) k') as [Heq|Hne].
  - exfalso; apply Hn; left; now symmetry.
  - f_equal. apply IH. intro Hin; apply Hn; now right.
Qed.

Lemma keys_dict_set_present kv d :
  In (fst kv) (keys d) -> keys (dict_set kv d) = keys d.
Proof.
  induction d as [|[k' v'] d IH]; simpl; intro Hin; [contradiction|].
  destruct (String.eqb_spec (fst kv) k') as [Heq|Hne]; simpl; [reflexivity|].
  f_equal. apply IH. destruct Hin as [Heq|Hin]; [congruence|exact Hin].
Qed.

Lemma in_keys_dict_set k kv d :
  In k (keys (dict_set kv d)) <-> k = fst kv \/ In k (keys d).
Proof.
  induction d as [|[k' v'] d IH]; simpl.
  - intuition congruence.
  - destruct (String.eqb_spec (fst kv) k') as [Heq|Hne]; simpl.
    + rewrite Heq. intuition congruence.
    + rewrite IH. intuition congruence.
Qed.

Lemma NoDup_keys_dict_set kv d :
  NoDup (keys d) -> NoDup (keys (dict_set kv d)).
Proof.
  induction d as [|[k' v'] d IH]; simpl; intro Hnd.
  - constructor; [intros []|constructor].
  - inversion Hnd as [|? ? Hnotin Hnd']; subst.
    destruct (String.eqb_spec (fst kv) k') as [Heq|Hne]; simpl.
    + now constructor.
    + constructor; [|now apply IH].
      rewrite in_keys_dict_set. intros [Heq|Hin]; [congruence|contradiction].
Qed.

Lemma NoDup_keys_dict_update items d :
  NoDup (keys d) -> NoDup (keys (dict_update items d)).
Proof.
  revert d; induction items as [|kv items IH]; intros d Hnd; simpl; [exact Hnd|].
  apply IH. now apply NoDup_keys_dict_set.
Qed.

Lemma NoDup_keys_py_dict items : NoDup (keys (py_dict items)).
Proof. apply NoDup_keys_dict_update. constructor. Qed.

(** Writing under a key that is present commutes with a write under
    another key. *)
Lemma dict_set_comm kv kv2 d :
  In (fst kv) (keys d) -> fst kv <> fst kv2 ->
  dict_set kv (dict_set kv2 d) = dict_set kv2 (dict_set kv d).
Proof.
  induction d as [|[k' v'] d IH]; simpl; intros Hin Hne; [contradiction|].
  repeat (eqb_cases; simpl); try congruence.
  f_equal. apply IH; [|exact Hne].
  destruct Hin as [Heq|Hin]; [congruence|exact Hin].
Qed.

Lemma dict_set_twice k v v' d :
  dict_set (k, v) (dict_set (k, v') d) = dict_set (k, v) d.
Proof.
  induction d as [|[k' w] d IH]; simpl.
  - now rewrite String.eqb_refl.
  - destruct (String.eqb_spec k k') as [->|Hne]; simpl.
    + now rewrite String.eqb_refl.
    + destruct (String.eqb_spec k k'); [congruence|]. now rewrite IH.
Qed.

Lemma dict_set_update_comm kv items acc :
  ~ In (fst kv) (map fst items) -> In (fst kv) (keys acc) ->
  dict_set kv (dict_update items acc) = dict_update items (dict_set kv acc).
Proof.
  revert acc; induction items as [|kv2 items IH]; intros acc Hnot Hin; simpl;
    [reflexivity|].
  simpl in Hnot.
  rewrite IH.
  - f_equal. apply dict_set_comm; [exact Hin|]. intro E; apply Hnot; now left.
  - intro H; apply Hnot; now right.
  - apply in_keys_dict_set. now right.
Qed.

Lemma dict_update_dict_set kv d acc :
  NoDup (keys d) ->
  dict_update (dict_set kv d) acc = dict_set kv (dict_update d acc).
Proof.
  revert acc; induction d as [|[k' v'] d IH]; intros acc Hnd; simpl; [reflexivity|].
  inversion Hnd as [|? ? Hnotin Hnd']; subst.
  destruct (String.eqb_spec (fst kv) k') as [Heq|Hne]; simpl.
  - destruct kv as [k v]; simpl in Heq; subst k'.
    rewrite dict_set_update_comm; simpl.
    + now rewrite dict_set_twice.
    + exact Hnotin.
    + apply in_keys_dict_set. now left.
  - now apply IH.
Qed.

(** Going through a dict in the middle of a list of items changes
    nothing: [dict(a + list(dict(b).items()))] is [dict(a + b)]. *)
Lemma dict_update_py_dict items acc :
  dict_update (py_dict items) acc = dict_update items acc.
Proof.
  induction items as [|kv items IH] using rev_ind; [reflexivity|].
  unfold py_dict. rewrite !dict_update_app. simpl.
  rewrite dict_update_dict_set by apply NoDup_keys_py_dict.
  fold (py_dict items). now rewrite IH.
Qed.

Lemma dict_get_dict_set k kv d :
  dict_get k (dict_set kv d) =
  if String.eqb k (fst kv) then Some (snd kv) else dict_get k d.
Proof.
  induction d as [|[k' v'] d IH]; simpl.
  - destruct kv as [k0 v0]; reflexivity.
  - destruct (String.eqb_spec (fst kv) k') as [Heq|Hne]; simpl.
    + rewrite Heq. destruct (String.eqb k k'); reflexivity.
    + rewrite IH.
      destruct (String.eqb_spec k k') as [->|]; [|reflexivity].
      destruct (String.eqb_spec k' (fst kv)); [congruence|reflexivity].
Qed.

Lemma dict_get_app k (l1 l2 : list (string * V)) :
  dict_get k (l1 ++ l2) =
  match dict_get k l1 with Some v => Some v | None => dict_get k l2 end.
Proof.
  induction l1 as [|[k' v'] l1 IH]; simpl; [reflexivity|].
  destruct (String.eqb k k'); [reflexivity|exact IH].
Qed.

Lemma dict_get_dict_update k items d :
  dict_get k (dict_update items d) =
  match last_written k items with Some v => Some v | None => dict_get k d end.
Proof.
  revert d; induction items as [|kv items IH] using rev_ind; intro d;
    [reflexivity|].
  rewrite dict_update_app. simpl. rewrite dict_get_dict_set.
  unfold last_written. rewrite rev_app_distr. simpl.
  destruct kv as [k0 v0]; simpl.
  destruct (String.eqb k k0); [reflexivity|]. apply IH.
Qed.

(** The dict of a list of items holds, under each key, the value written
    last. *)
Lemma dict_get_py_dict k items :
  dict_get k (py_dict items) = last_written k items.
Proof.
  unfold py_dict. rewrite dict_get_dict_update. simpl.
  now destruct (last_written k items).
Qed.

Lemma dict_update_distinct items d :
  NoDup (keys d ++ map fst items) -> dict_update items d = d ++ items.
Proof.
  revert d; induction items as [|kv items IH]; intros d Hnd; simpl.
  - now rewrite app_nil_r.
  - rewrite dict_set_absent.
    + rewrite IH.
      * now rewrite <- app_assoc.
      * unfold keys in *. rewrite map_app. simpl.
        rewrite <- app_assoc. exact Hnd.
    + apply NoDup_remove_2 in Hnd. intro Hin. apply Hnd.
      apply in_or_app. now left.
Qed.

(** Items with distinct keys are kept as they are, in their order. *)
Lemma py_dict_distinct items :
  NoDup (map fst items) -> py_dict items = items.
Proof. intro Hnd. unfold py_dict. now rewrite dict_update_distinct. Qed.
End DictFacts.

(** *** [flatten_dict] against the leaves of the record *)

Lemma append_assoc (a b c : string) : (a +:+ b) +:+ c = a +:+ b +:+ c.
Proof. induction a as [|x a IH]; simpl; [reflexivity|now rewrite IH]. Qed.

Lemma append_nonempty (a b : string) : b <> "" -> a +:+ b <> "".
Proof. destruct a; simpl; [auto|discriminate]. Qed.

Lemma path_key_cons prefix s path :
  path_key prefix (s :: path) = path_key (extend_key prefix s) path.
Proof. reflexivity. Qed.

Lemma leaf_entry_under prefix s (ls : list (list step * value)) :
  map (leaf_entry prefix) (map (under s) ls) = map (leaf_entry (extend_key prefix s)) ls.
Proof. rewrite map_map. apply map_ext. intros [p x]. reflexivity. Qed.

Lemma concat_merge_head (a t : string) (rest : list string) :
  String.concat "_" ((a +:+ "_" +:+ t) :: rest) = String.concat "_" (a :: t :: rest).
Proof.
  destruct rest as [|r rest]; [reflexivity|].
  cbn [String.concat]. now rewrite !append_assoc.
Qed.

Lemma path_key_concat prefix path :
  prefix <> "" -> named_path path = true ->
  path_key prefix path = String.concat "_" (prefix :: map step_text path).
Proof.
  revert prefix; induction path as [|s path IH]; intros prefix Hne Hnamed;
    [reflexivity|].
  simpl in Hnamed. apply andb_true_iff in Hnamed as [Hs Hnamed].
  rewrite path_key_cons, IH; [|destruct s; simpl|exact Hnamed].
  - destruct s as [k|i]; simpl extend_key; simpl map.
    + destruct (String.eqb_spec prefix ""); [contradiction|].
      apply concat_merge_head.
    + apply concat_merge_head.
  - destruct (String.eqb_spec prefix ""); [contradiction|].
    apply append_nonempty. discriminate.
  - apply append_nonempty. discriminate.
Qed.

Lemma leaves_list l : leaves (JList l) = seq_leaves 0 l.
Proof. reflexivity. Qed.

Lemma flatten_list_leaves key i l :
  forallb (fun e => negb (is_composite e)) l = true ->
  flatten_list key i l = map (leaf_entry key) (seq_leaves i l).
Proof.
  revert i; induction l as [|e l IH]; intros i Hall; [reflexivity|].
  simpl in Hall. apply andb_true_iff in Hall as [He Hall].
  destruct e as [x| |]; try discriminate.
  simpl. f_equal. now apply IH.
Qed.

Lemma flatten_value_leaves v :
  forall key acc,
    scalar_sequences v = true ->
    dict_update (flatten_value v key) acc =
    dict_update (map (leaf_entry key) (leaves v)) acc.
Proof.
  induction v as [x|l _|d IH] using json_ind; intros key acc Hok.
  - reflexivity.
  - rewrite leaves_list. simpl flatten_value.
    now rewrite flatten_list_leaves.
  - rewrite flatten_value_dict. unfold flatten_dict.
    rewrite dict_update_py_dict. unfold flatten_items. simpl leaves.
    simpl in Hok. revert acc.
    induction d as [|[k v] d IHd]; intro acc; [reflexivity|].
    simpl in Hok. apply andb_true_iff in Hok as [Hv Hd].
    inversion IH as [|? ? IHv IHrest]; subst.
    simpl flat_map. rewrite map_app, !dict_update_app.
    rewrite leaf_entry_under. simpl in IHv. rewrite IHv by exact Hv.
    apply IHd; assumption.
Qed.

Lemma leaves_dict_start d p x :
  In (p, x) (leaves (JDict d)) -> exists k p', p = Key k :: p'.
Proof.
  simpl. rewrite in_flat_map. intros [[k v] [_ Hin]].
  apply in_map_iff in Hin as [[p' x'] [Heq _]].
  inversion Heq; subst. now exists k, p'.
Qed.

(** C4.  For a mapping whose sequences hold scalars only, [flatten_dict]
    called at the root is the dict of one entry per scalar leaf, in
    traversal order, keyed by the underscore-join of the leaf's path (no
    separator in front of a mapping key when the prefix is empty).  So it
    holds under each key the value written last; when the keys of the
    leaves are distinct it is exactly one entry per leaf; and when no
    mapping key is empty the key of a leaf is the plain join of its path
    with ["_"]. *)
Theorem flatten_dict_leaves :
  forall d,
    scalar_sequences (JDict d) = true ->
    let entries := map (leaf_entry "") (leaves (JDict d)) in
    flatten_dict d "" = py_dict entries /\
    (forall k, dict_get k (flatten_dict d "") = last_written k entries) /\
    (NoDup (map fst entries) -> flatten_dict d "" = entries) /\
    (forall p x, In (p, x) (leaves (JDict d)) -> named_path p = true ->
                 fst (leaf_entry "" (p, x)) = String.concat "_" (map step_text p)).
Proof.
  intros d Hok entries.
  assert (Hdict : flatten_dict d "" = py_dict entries).
  { rewrite <- (flatten_value_dict d "").
    change (flatten_value (JDict d) "")
      with (dict_update (@nil (string * value)) (flatten_value (JDict d) "")).
    generalize (flatten_value_leaves (JDict d) "" [] Hok).
    unfold py_dict, entries. intro H. rewrite <- H.
    rewrite flatten_value_dict. unfold flatten_dict.
    now rewrite dict_update_py_dict. }
  split; [exact Hdict|]. split; [|split].
  - intro k. rewrite Hdict. apply dict_get_py_dict.
  - intro Hnd. rewrite Hdict. now apply py_dict_distinct.
  - intros p x Hin Hnamed.
    destruct (leaves_dict_start d p x Hin) as [k [p' ->]].
    simpl in Hnamed. apply andb_true_iff in Hnamed as [Hk Hnamed].
    change (fst (leaf_entry "" (Key k :: p', x))) with (path_key k p').
    apply path_key_concat; [|exact Hnamed].
    apply negb_true_iff in Hk. now apply String.eqb_neq.
Qed.

Lemma flatten_dict_leaves_witness :
  flatten_dict nested_dish "" =
  [ ("rating_value", VStr "4.1"); ("rating_votes", VInt 12);
    ("tag_slugs_0", VStr "veg"); ("tag_slugs_1", VStr "spicy");
    ("name", VStr "Rice") ].
Proof.
  apply (flatten_dict_leaves nested_dish eq_refl).
  vm_compute. repeat (constructor; [simpl; intuition discriminate|]).
  constructor.
Defined.

(** ** Frames *)

Lemma mem_In x xs : Py.mem x xs = true <-> In x xs.
Proof.
  unfold Py.mem. rewrite existsb_exists. split.
  - intros [y [Hin Heq]]. apply String.eqb_eq in Heq. now subst.
  - intro Hin. exists x. split; [exact Hin|apply String.eqb_refl].
Qed.

Lemma mem_false x xs : Py.mem x xs = false <-> ~ In x xs.
Proof.
  rewrite <- mem_In. destruct (Py.mem x xs); intuition congruence.
Qed.

Lemma filter_flat_map {A B : Type} (p : B -> bool) (f : A -> list B) (l : list A) :
  filter p (flat_map f l) = flat_map (fun x => filter p (f x)) l.
Proof.
  induction l as [|x l IH]; simpl; [reflexivity|].
  now rewrite filter_app, IH.
Qed.

Lemma filter_label_twice (c l : string) (cs : list (string * list value)) :
  filter (fun x => String.eqb (fst x) c) (filter (fun x => String.eqb (fst x) l) cs) =
  if String.eqb l c then filter (fun x => String.eqb (fst x) c) cs else [].
Proof.
  induction cs as [|[k s] cs IH]; simpl.
  - now destruct (String.eqb l c).
  - destruct (String.eqb_spec k l) as [->|Hkl]; simpl.
    + destruct (String.eqb_spec l c); simpl; [now f_equal|exact IH].
    + rewrite IH. destruct (String.eqb_spec l c) as [->|]; [|reflexivity].
      destruct (String.eqb_spec k c); [contradiction|reflexivity].
Qed.

Lemma flat_map_once {B : Type} (c : string) (X : list B) (L : list string) :
  NoDup L ->
  flat_map (fun l => if String.eqb l c then X else []) L =
  if Py.mem c L then X else [].
Proof.
  induction L as [|l L IH]; intro Hnd; [reflexivity|].
  inversion Hnd as [|? ? Hnotin Hnd']; subst. simpl.
  rewrite (String.eqb_sym c l).
  destruct (String.eqb_spec l c) as [->|Hne]; simpl.
  - rewrite IH by exact Hnd'.
    apply mem_false in Hnotin. rewrite Hnotin.
    apply app_nil_r.
  - now apply IH.
Qed.

Lemma columns_named_getitem_list c L df :
  NoDup L ->
  columns_named c (getitem_list L df) =
  if Py.mem c L then columns_named c df else [].
Proof.
  intro Hnd. unfold columns_named, getitem_list; simpl.
  rewrite filter_flat_map.
  rewrite (flat_map_ext _ (fun l => if String.eqb l c
                                    then filter (fun x => String.eqb (fst x) c) (cols df)
                                    else []))
    by (intro l; apply filter_label_twice).
  rewrite flat_map_once by exact Hnd.
  now destruct (Py.mem c L).
Qed.

Lemma columns_named_absent c df :
  ~ In c (columns df) -> columns_named c df = [].
Proof.
  unfold columns_named, columns. induction (cols df) as [|[k s] cs IH]; simpl;
    intro Hn; [reflexivity|].
  destruct (String.eqb_spec k c) as [->|Hne].
  - exfalso; apply Hn; now left.
  - apply IH. intro Hin; apply Hn; now right.
Qed.

Lemma labels_of_unique_label l (cs : list (string * list value)) :
  NoDup (map fst cs) -> In l (map fst cs) ->
  map fst (filter (fun x => String.eqb (fst x) l) cs) = [l].
Proof.
  induction cs as [|[k s] cs IH]; simpl; intros Hnd Hin; [contradiction|].
  inversion Hnd as [|? ? Hnotin Hnd']; subst.
  destruct (String.eqb_spec k l) as [->|Hne]; simpl.
  - f_equal.
    assert (Hnone : columns_named l (mkDF 0 cs) = [])
      by (apply columns_named_absent; exact Hnotin).
    unfold columns_named in Hnone; simpl in Hnone.
    apply map_eq_nil in Hnone. now rewrite Hnone.
  - apply IH; [exact Hnd'|]. destruct Hin as [Heq|Hin]; [contradiction|exact Hin].
Qed.

Lemma columns_getitem_list L df :
  NoDup (columns df) -> (forall l, In l L -> In l (columns df)) ->
  columns (getitem_list L df) = L.
Proof.
  intros Hnd Hsub. unfold columns, getitem_list; simpl.
  induction L as [|l L IH]; [reflexivity|].
  simpl. rewrite map_app, labels_of_unique_label; [|exact Hnd|].
  - simpl. f_equal. apply IH. intros l' Hl'. apply Hsub. now right.
  - apply Hsub. now left.
Qed.

Lemma NoDup_priority_cols : NoDup priority_cols.
Proof.
  unfold priority_cols.
  repeat (constructor; [simpl; intuition discriminate|]). constructor.
Qed.

Section OrganizeColumns.
Variable df : DataFrame.
Hypothesis Hunique : NoDup (columns df).

Let existing_priority_cols :=
  filter (fun col => Py.mem col (columns df)) priority_cols.
Let other_cols :=
  filter (fun col => negb (Py.mem col existing_priority_cols)) (columns df).

Lemma existing_priority_cols_spec c :
  In c existing_priority_cols <-> In c priority_cols /\ In c (columns df).
Proof. unfold existing_priority_cols. now rewrite filter_In, mem_In. Qed.

Lemma other_cols_spec c :
  In c other_cols <-> In c (columns df) /\ ~ In c existing_priority_cols.
Proof.
  unfold other_cols. now rewrite filter_In, negb_true_iff, mem_false.
Qed.

Lemma NoDup_new_order : NoDup (existing_priority_cols ++ other_cols).
Proof.
  apply NoDup_app.
  - apply NoDup_filter, NoDup_priority_cols.
  - apply NoDup_filter, Hunique.
  - intros c H1 H2. apply other_cols_spec in H2. tauto.
Qed.

Lemma new_order_same_labels c :
  In c (existing_priority_cols ++ other_cols) <-> In c (columns df).
Proof.
  rewrite in_app_iff, existing_priority_cols_spec, other_cols_spec,
    existing_priority_cols_spec.
  destruct (in_dec string_dec c priority_cols); tauto.
Qed.

Lemma other_cols_not_priority :
  other_cols = filter (fun col => negb (Py.mem col priority_cols)) (columns df).
Proof.
  unfold other_cols. apply filter_ext_in. intros c Hc. f_equal.
  destruct (Py.mem c priority_cols) eqn:Hp.
  - apply mem_In. apply existing_priority_cols_spec. split; [|exact Hc].
    now apply mem_In.
  - apply mem_false. rewrite existing_priority_cols_spec.
    apply mem_false in Hp. tauto.
Qed.
End OrganizeColumns.

(** C9.  On a frame with distinct column labels [organize_columns] keeps
    the rows, puts the priority labels that occur first, in priority order,
    then the other labels in their previous order; the labels are a
    permutation of the old ones, and under every label the column holds the
    values it held. *)
Theorem organize_columns_permutes :
  forall df,
    NoDup (columns df) ->
    nrows (organize_columns df) = nrows df /\
    columns (organize_columns df) =
      filter (fun col => Py.mem col (columns df)) priority_cols
      ++ filter (fun col => negb (Py.mem col priority_cols)) (columns df) /\
    Permutation (columns (organize_columns df)) (columns df) /\
    (forall c, columns_named c (organize_columns df) = columns_named c df).
Proof.
  intros df Hnd.
  assert (Hcols : columns (organize_columns df) =
                  filter (fun col => Py.mem col (columns df)) priority_cols
                  ++ filter (fun col => negb (Py.mem col
                       (filter (fun col => Py.mem col (columns df)) priority_cols)))
                       (columns df)).
  { unfold organize_columns. apply columns_getitem_list; [exact Hnd|].
    intros l Hl. now apply (new_order_same_labels df). }
  split; [reflexivity|]. split; [|split].
  - rewrite Hcols. f_equal. apply other_cols_not_priority.
  - rewrite Hcols. apply NoDup_Permutation.
    + now apply NoDup_new_order.
    + exact Hnd.
    + intro c. apply new_order_same_labels.
  - intro c. unfold organize_columns.
    rewrite columns_named_getitem_list by now apply NoDup_new_order.
    destruct (Py.mem c _) eqn:Hmem; [reflexivity|].
    symmetry. apply columns_named_absent.
    apply mem_false in Hmem. now rewrite <- (new_order_same_labels df).
Qed.

Lemma organize_columns_permutes_witness :
  columns (organize_columns (DataFrame_of_records two_dishes)) =
  ["category"; "price"; "name"].
Proof.
  apply (organize_columns_permutes (DataFrame_of_records two_dishes)).
  vm_compute. repeat (constructor; [simpl; intuition discriminate|]).
  constructor.
Defined.

(** *** Columns under assignment and removal *)


Lemma nrows_setitem n s df : nrows (setitem n s df) = nrows df.
Proof.
  unfold setitem. destruct (Py.mem n (columns df)); [|reflexivity].
  now destruct (column_to_set_is_duplicated n s df).
Qed.



Lemma labels_set_duplicated n m s cs :
  map fst (set_duplicated n m s cs) = map fst cs.
Proof.
  revert s; induction cs as [|[k x] cs IH]; intro s; [reflexivity|]. simpl.
  destruct (String.eqb_spec k n) as [->|Hne]; [destruct s|]; simpl;
    now rewrite IH.
Qed.

Lemma filter_set_duplicated_other n' n m s cs :
  n' <> n ->
  filter (fun c => String.eqb (fst c) n') (set_duplicated n m s cs) =
  filter (fun c => String.eqb (fst c) n') cs.
Proof.
  intro Hne. revert s; induction cs as [|[k x] cs IH]; intro s; [reflexivity|].
  simpl. destruct (String.eqb_spec k n) as [->|Hkn].
  - destruct s as [|v s']; simpl;
      (destruct (String.eqb_spec n n'); [congruence|apply IH]).
  - simpl. destruct (String.eqb k n'); now rewrite IH.
Qed.




Lemma columns_named_setitem_other n' n s df :
  n' <> n -> columns_named n' (setitem n s df) = columns_named n' df.
Proof.
  intro Hne. unfold columns_named, setitem.
  destruct (Py.mem n (columns df)).
  - destruct (column_to_set_is_duplicated n s df); simpl.
    + now rewrite filter_set_duplicated_other.
    + induction (cols df) as [|[k x] cs IH]; [reflexivity|]. simpl.
      destruct (String.eqb_spec k n) as [->|Hkn]; simpl.
      * destruct (String.eqb_spec n n'); [congruence|exact IH].
      * destruct (String.eqb k n'); simpl; now rewrite IH.
  - simpl. rewrite filter_app, map_app. simpl.
    destruct (String.eqb_spec n n'); [congruence|]. apply app_nil_r.
Qed.

(** Outside the duplicated case, every column of the label holds the
    value. *)
Lemma columns_named_setitem n s df :
  column_to_set_is_duplicated n s df = false ->
  columns_named n (setitem n s df) =
  if Py.mem n (columns df) then map (fun _ => s) (columns_named n df) else [s].
Proof.
  intro Hdup. unfold setitem. rewrite Hdup. unfold columns_named.
  destruct (Py.mem n (columns df)) eqn:Hmem; simpl.
  - clear Hmem Hdup. induction (cols df) as [|[k x] cs IH]; [reflexivity|]. simpl.
    destruct (String.eqb_spec k n) as [->|Hkn]; simpl.
    + rewrite String.eqb_refl. simpl. now f_equal.
    + destruct (String.eqb_spec k n); [contradiction|exact IH].
  - rewrite filter_app, map_app. simpl. rewrite String.eqb_refl. simpl.
    apply mem_false in Hmem. apply columns_named_absent in Hmem.
    unfold columns_named in Hmem. now rewrite Hmem.
Qed.

(** A label borne by at most one column is never in the duplicated case. *)
Lemma single_not_duplicated n s df :
  List.length (columns_named n df) <= 1 ->
  column_to_set_is_duplicated n s df = false.
Proof.
  intro H. unfold column_to_set_is_duplicated.
  apply andb_false_iff. left. apply Nat.ltb_ge. exact H.
Qed.

Lemma columns_named_present n df :
  In n (columns df) -> columns_named n df <> [].
Proof.
  unfold columns_named, columns.
  induction (cols df) as [|[k x] cs IH]; simpl; intro Hin; [contradiction|].
  destruct (String.eqb_spec k n) as [->|Hne]; simpl; [discriminate|].
  apply IH. destruct Hin; [contradiction|assumption].
Qed.

Lemma series_setitem n s df :
  column_to_set_is_duplicated n s df = false -> series n (setitem n s df) = s.
Proof.
  intro Hdup. unfold series. rewrite columns_named_setitem by exact Hdup.
  destruct (Py.mem n (columns df)) eqn:Hmem; [|reflexivity].
  apply mem_In, columns_named_present in Hmem.
  destruct (columns_named n df); [contradiction|reflexivity].
Qed.

Lemma columns_named_drop_columns n L df :
  ~ In n L -> columns_named n (drop_columns L df) = columns_named n df.
Proof.
  intro Hn. unfold columns_named, drop_columns; simpl.
  induction (cols df) as [|[k x] cs IH]; [reflexivity|]. simpl.
  destruct (Py.mem k L) eqn:Hk; simpl.
  - destruct (String.eqb_spec k n) as [->|]; [|exact IH].
    apply mem_In in Hk. contradiction.
  - destruct (String.eqb k n); simpl; now rewrite IH.
Qed.

(** *** Rows and [mapM] *)

Lemma mapM_nth_error {A B : Type} (f : A -> result B) xs ys i x :
  mapM f xs = Ok ys -> nth_error xs i = Some x ->
  exists y, f x = Ok y /\ nth_error ys i = Some y.
Proof.
  revert ys i; induction xs as [|x0 xs IH]; intros ys i Hm Hi.
  - destruct i; discriminate.
  - simpl in Hm. destruct (f x0) as [y0|] eqn:Hf; [|discriminate]. simpl in Hm.
    destruct (mapM f xs) as [ys0|] eqn:Hrest; [|discriminate]. simpl in Hm.
    inversion Hm; subst. destruct i as [|i]; simpl in *.
    + inversion Hi; subst. now exists y0.
    + now apply IH.
Qed.

Lemma mapM_length {A B : Type} (f : A -> result B) xs ys :
  mapM f xs = Ok ys -> List.length ys = List.length xs.
Proof.
  revert ys; induction xs as [|x xs IH]; intros ys H; simpl in H.
  - now inversion H.
  - destruct (f x) as [y|]; [|discriminate]. simpl in H.
    destruct (mapM f xs) as [ys0|]; [|discriminate]. simpl in H.
    inversion H; subst. simpl. now rewrite (IH ys0).
Qed.

Lemma apply_rows_length f df s :
  apply_rows f df = Ok s -> List.length s = nrows df.
Proof.
  unfold apply_rows. intro H. apply mapM_length in H.
  now rewrite length_map, length_seq in H.
Qed.

Lemma duplicated_as_rows_setitem n s df :
  List.length s = nrows df ->
  column_to_set_is_duplicated n s df = duplicated_as_rows n df.
Proof.
  intro H. unfold column_to_set_is_duplicated, duplicated_as_rows. now rewrite H.
Qed.

Lemma nth_error_rows df i :
  i < nrows df -> nth_error (map (row df) (seq 0 (nrows df))) i = Some (row df i).
Proof.
  intro Hi. rewrite nth_error_map.
  rewrite (nth_error_nth' _ 0) by now rewrite length_seq.
  now rewrite seq_nth.
Qed.


(** *** The three indexed groups *)

Lemma re_match_indexed_head c b l :
  Py.re_match_indexed (String c b) l = true -> exists l0, l = String c l0.
Proof.
  unfold Py.re_match_indexed. intro H. apply andb_true_iff in H as [H _].
  destruct l as [|c' l0]; simpl in H; [discriminate|].
  destruct (ascii_dec c c') as [->|]; [|discriminate]. now exists l0.
Qed.


(** The name of a group column matches no group pattern. *)
Lemma group_name_unmatched g g' :
  In g tag_patterns -> In g' tag_patterns ->
  Py.re_match_indexed (snd g') (fst g) = false.
Proof. intros H H'. each_group H; each_group H'; reflexivity. Qed.

(** No label matches the patterns of two groups. *)
Lemma group_patterns_disjoint g g' l :
  In g tag_patterns -> In g' tag_patterns -> g <> g' ->
  Py.re_match_indexed (snd g) l = true ->
  Py.re_match_indexed (snd g') l = false.
Proof.
  intros H H' Hne Hm.
  destruct (Py.re_match_indexed (snd g') l) eqn:Hm'; [exfalso|reflexivity].
  each_group H; each_group H'; try congruence; simpl in Hm, Hm';
    apply re_match_indexed_head in Hm as [l0 ->];
    apply re_match_indexed_head in Hm' as [l1 Heq]; discriminate.
Qed.

Lemma group_names_distinct g g' :
  In g tag_patterns -> In g' tag_patterns -> g <> g' -> fst g <> fst g'.
Proof.
  intros H H' Hne. each_group H; each_group H'; simpl; congruence.
Qed.

Lemma in_matching_cols b df l :
  In l (matching_cols b df) <->
  In l (columns df) /\ Py.re_match_indexed b l = true.
Proof. unfold matching_cols. apply filter_In. Qed.

Section CollapseGroup.
Variables (df df1 : DataFrame) (g : string * string).
Hypothesis Hg : In g tag_patterns.
Hypothesis Hstep : collapse_group df g = Ok df1.

Lemma collapse_group_inv :
  (matching_cols (snd g) df = [] /\ df1 = df) \/
  (matching_cols (snd g) df <> [] /\
   exists s,
     apply_rows join_row (getitem_list (matching_cols (snd g) df) df) = Ok s /\
     df1 = drop_columns (matching_cols (snd g) df) (setitem (fst g) s df)).
Proof.
  destruct g as [n b]. unfold collapse_group in Hstep. simpl.
  destruct (matching_cols b df) as [|m ms] eqn:Hmatch.
  - left. split; [reflexivity|]. now inversion Hstep.
  - right. split; [discriminate|].
    destruct (apply_rows join_row (getitem_list (m :: ms) df)) as [s|] eqn:Hs;
      [|discriminate].
    exists s. split; [reflexivity|]. simpl in Hstep. now inversion Hstep.
Qed.

Lemma collapse_group_nrows : nrows df1 = nrows df.
Proof.
  destruct collapse_group_inv as [[_ ->]|[_ [s [_ ->]]]]; [reflexivity|].
  simpl. apply nrows_setitem.
Qed.



Lemma collapse_group_series_other n :
  n <> fst g -> Py.re_match_indexed (snd g) n = false ->
  series n df1 = series n df.
Proof.
  intros Hne Hnomatch.
  destruct collapse_group_inv as [[_ ->]|[_ [s [_ ->]]]]; [reflexivity|].
  unfold series. rewrite columns_named_drop_columns.
  - now rewrite columns_named_setitem_other.
  - rewrite in_matching_cols. intros [_ Hm]. congruence.
Qed.

(** A column that neither matches the pattern nor bears the group's name
    is left as it is. *)
Lemma collapse_group_columns_named c :
  c <> fst g -> Py.re_match_indexed (snd g) c = false ->
  columns_named c df1 = columns_named c df.
Proof.
  intros Hne Hnomatch.
  destruct collapse_group_inv as [[_ ->]|[_ [s [_ ->]]]]; [reflexivity|].
  rewrite columns_named_drop_columns.
  - now rewrite columns_named_setitem_other.
  - rewrite in_matching_cols. intros [_ Hm]. congruence.
Qed.


End CollapseGroup.

Lemma NoDup_tag_patterns : NoDup tag_patterns.
Proof.
  unfold tag_patterns.
  repeat (constructor; [simpl; intuition discriminate|]). constructor.
Qed.

Lemma foldM_collapse_keeps_series gs g :
  incl gs tag_patterns -> In g tag_patterns -> ~ In g gs ->
  forall df df',
    foldM collapse_group gs df = Ok df' -> series (fst g) df' = series (fst g) df.
Proof.
  induction gs as [|g0 gs IH]; intros Hincl Hg Hnotin df df' Hrun.
  - now inversion Hrun.
  - simpl in Hrun. destruct (collapse_group df g0) as [df1|] eqn:Hstep;
      [|discriminate]. simpl in Hrun.
    assert (Hg0 : In g0 tag_patterns) by (apply Hincl; now left).
    assert (Hne : g <> g0) by (intro E; apply Hnotin; now left).
    rewrite (IH (fun x Hx => Hincl x (or_intror Hx)) Hg
                (fun Hx => Hnotin (or_intror Hx)) df1 df' Hrun).
    eapply collapse_group_series_other; [exact Hg0|exact Hstep| |].
    + now apply group_names_distinct.
    + now apply group_name_unmatched.
Qed.

(** The pass of another group changes neither the columns that bear the
    name of a group nor the number of rows. *)
Lemma collapse_group_duplicated_as_rows df df1 g g' :
  In g tag_patterns -> In g' tag_patterns -> g' <> g ->
  collapse_group df g = Ok df1 ->
  duplicated_as_rows (fst g') df1 = duplicated_as_rows (fst g') df.
Proof.
  intros Hg Hg' Hne Hstep. unfold duplicated_as_rows.
  rewrite (collapse_group_nrows df df1 g Hg Hstep).
  rewrite (collapse_group_columns_named df df1 g Hg Hstep (fst g'));
    [reflexivity| |].
  - now apply group_names_distinct.
  - now apply group_name_unmatched.
Qed.





(** ** Sorting *)




Section StableSort.
Context {A : Type} (le : A -> A -> bool).
Hypothesis le_total : forall x y, le x y = false -> le y x = true.


Lemma insert_perm x l : Permutation (insert le x l) (x :: l).
Proof.
  induction l as [|y l IH]; simpl; [reflexivity|].
  destruct (le x y); [reflexivity|].
  rewrite IH. apply perm_swap.
Qed.

Lemma stable_sort_perm l : Permutation (stable_sort le l) l.
Proof.
  induction l as [|x l IH]; simpl; [reflexivity|].
  rewrite insert_perm. now constructor.
Qed.



End StableSort.




Lemma key_column_series df l s : key_column df l = Ok s -> series l df = s.
Proof.
  unfold key_column, series.
  destruct (columns_named l df) as [|s0 [|s1 rest]]; intro H; inversion H.
  reflexivity.
Qed.

Lemma key_column_named df l s : key_column df l = Ok s -> columns_named l df = [s].
Proof.
  unfold key_column.
  destruct (columns_named l df) as [|s0 [|s1 rest]]; intro H; inversion H.
  reflexivity.
Qed.

Lemma mapM_key_columns df by_ key_cols :
  mapM (key_column df) by_ = Ok key_cols ->
  key_cols = map (fun l => series l df) by_ /\
  Forall (fun l => exists s, columns_named l df = [s]) by_.
Proof.
  revert key_cols; induction by_ as [|l by_ IH]; intros key_cols H; simpl in H.
  - inversion H. now split.
  - destruct (key_column df l) as [s|] eqn:Hl; [|discriminate]. simpl in H.
    destruct (mapM (key_column df) by_) as [ks|]; [|discriminate]. simpl in H.
    inversion H; subst. destruct (IH ks eq_refl) as [-> Hall].
    split.
    + simpl. f_equal. symmetry. now apply key_column_series.
    + constructor; [|exact Hall]. exists s. now apply key_column_named.
Qed.

Lemma stable_sort_ext {A : Type} (le1 le2 : A -> A -> bool) l :
  (forall x y, le1 x y = le2 x y) -> stable_sort le1 l = stable_sort le2 l.
Proof.
  intro Hext. induction l as [|x l IH]; simpl; [reflexivity|]. rewrite IH.
  generalize (stable_sort le2 l). intro m.
  induction m as [|y m IHm]; simpl; [reflexivity|].
  rewrite Hext, IHm. reflexivity.
Qed.

Lemma sort_values_inv by_ df t :
  sort_values by_ df = Ok t ->
  t = take (sort_order by_ df) df /\
  Forall (fun l => exists s, columns_named l df = [s]) by_.
Proof.
  unfold sort_values. intro H.
  destruct (mapM (key_column df) by_) as [key_cols|] eqn:Hk; [|discriminate].
  simpl in H. inversion H; subst t; clear H.
  apply mapM_key_columns in Hk as [-> Hall].
  split; [|exact Hall].
  f_equal. unfold sort_order. apply stable_sort_ext.
  intros i j. unfold row_key. now rewrite !map_map.
Qed.

Lemma sort_order_perm by_ df : Permutation (sort_order by_ df) (seq 0 (nrows df)).
Proof. apply stable_sort_perm. Qed.




Lemma process_menu_data_inv df t :
  process_menu_data df = Ok t ->
  exists u, prepare df = Ok u /\ sort_values ["category"; "price"] u = Ok t.
Proof.
  unfold process_menu_data. destruct (prepare df) as [u|]; [|discriminate].
  simpl. intro H. now exists u.
Qed.




(** *** The order of [sort_values] is transitive *)













(** ** Numeric conversion *)













Lemma columns_setitem_present n s df :
  Py.mem n (columns df) = true -> columns (setitem n s df) = columns df.
Proof.
  intro Hmem. unfold setitem. rewrite Hmem. unfold columns.
  destruct (column_to_set_is_duplicated n s df); simpl.
  - apply labels_set_duplicated.
  - rewrite map_map. apply map_ext_in. intros [k x] _. simpl.
    destruct (String.eqb_spec k n); simpl; congruence.
Qed.

Lemma convert_numeric_col_ok df col :
  List.length (columns_named col df) <= 1 ->
  exists df',
    convert_numeric_col df col = Ok df' /\
    nrows df' = nrows df /\ columns df' = columns df /\
    forall c, columns_named c df' =
              if String.eqb c col then map to_numeric (columns_named c df)
              else columns_named c df.
Proof.
  intro Hone. unfold convert_numeric_col.
  destruct (Py.mem col (columns df)) eqn:Hmem.
  - pose proof (columns_named_present col df (proj1 (mem_In _ _) Hmem)) as Hsome.
    destruct (columns_named col df) as [|s [|s' rest]] eqn:Hnamed;
      [contradiction| |simpl in Hone; lia].
    eexists. split; [reflexivity|]. split; [apply nrows_setitem|].
    split; [now apply columns_setitem_present|].
    intro c. destruct (String.eqb_spec c col) as [->|Hne].
    + rewrite columns_named_setitem, Hmem, Hnamed; [reflexivity|].
      apply single_not_duplicated. now rewrite Hnamed.
    + now apply columns_named_setitem_other.
  - exists df. repeat split.
    intro c. destruct (String.eqb_spec c col) as [->|Hne]; [|reflexivity].
    apply mem_false in Hmem. now rewrite (columns_named_absent col df Hmem).
Qed.

Lemma foldM_convert_numeric L :
  NoDup L ->
  forall df,
    (forall c, In c L -> List.length (columns_named c df) <= 1) ->
    exists df',
      foldM convert_numeric_col L df = Ok df' /\
      nrows df' = nrows df /\ columns df' = columns df /\
      forall c, columns_named c df' =
                if Py.mem c L then map to_numeric (columns_named c df)
                else columns_named c df.
Proof.
  induction L as [|col L IH]; intros Hnd df Hone.
  - exists df. repeat split.
  - inversion Hnd as [|? ? Hnotin Hnd']; subst.
    destruct (convert_numeric_col_ok df col (Hone col (or_introl eq_refl)))
      as [df1 [Hstep [Hrows1 [Hcols1 Hnamed1]]]].
    destruct (IH Hnd' df1) as [df' [Hrun [Hrows [Hcols Hnamed]]]].
    { intros c Hc. rewrite Hnamed1.
      destruct (String.eqb_spec c col) as [->|]; [contradiction|].
      apply Hone. now right. }
    exists df'. simpl. rewrite Hstep. simpl.
    split; [exact Hrun|]. split; [congruence|]. split; [congruence|].
    intro c. rewrite Hnamed, Hnamed1. 
    destruct (String.eqb_spec c col) as [->|Hne]; simpl.
    + apply mem_false in Hnotin. now rewrite Hnotin.
    + reflexivity.
Qed.

Lemma NoDup_numeric_cols : NoDup numeric_cols.
Proof.
  unfold numeric_cols.
  repeat (constructor; [simpl; intuition discriminate|]). constructor.
Qed.

Lemma single_numeric_cols_spec df :
  single_numeric_cols df = true ->
  forall c, In c numeric_cols -> List.length (columns_named c df) <= 1.
Proof.
  unfold single_numeric_cols. rewrite forallb_forall. intros H c Hc.
  apply Nat.leb_le. now apply H.
Qed.

Lemma convert_numeric_ok df :
  single_numeric_cols df = true ->
  exists df',
    convert_numeric df = Ok df' /\
    nrows df' = nrows df /\ columns df' = columns df /\
    forall c, columns_named c df' =
              if Py.mem c numeric_cols then map to_numeric (columns_named c df)
              else columns_named c df.
Proof.
  intro H. apply (foldM_convert_numeric numeric_cols NoDup_numeric_cols).
  now apply single_numeric_cols_spec.
Qed.










(** ** Exceptions of [process_menu_data] *)

Lemma select_mask_cons {A : Type} (m : bool) mask (x : A) xs :
  select_mask (m :: mask) (x :: xs) =
  if m then x :: select_mask mask xs else select_mask mask xs.
Proof. unfold select_mask. simpl. now destruct m. Qed.

Lemma first_occurrences seen (cs : list (string * list value)) :
  let kept := select_mask (map negb (duplicated_from seen (map fst cs))) cs in
  NoDup (map fst kept) /\
  forall c, In c (map fst kept) <-> In c (map fst cs) /\ ~ In c seen.
Proof.
  revert seen; induction cs as [|[k s] cs IH]; intro seen; simpl.
  - split; [constructor|]. intro c. unfold select_mask; simpl. tauto.
  - rewrite select_mask_cons.
    destruct (IH (k :: seen)) as [Hnd Hin].
    destruct (Py.mem k seen) eqn:Hk; simpl.
    + split; [exact Hnd|]. intro c. rewrite Hin. simpl.
      apply mem_In in Hk. split.
      * intros [H1 H2]. split; [now right|]. intro; apply H2; now right.
      * intros [[->|H1] H2]; [contradiction|]. split; [exact H1|].
        intros [->|H3]; contradiction.
    + apply mem_false in Hk. split.
      * constructor; [|exact Hnd]. rewrite Hin. simpl. tauto.
      * intro c. rewrite Hin. simpl. split.
        -- intros [->|[H1 H2]]; [tauto|]. split; [now right|].
           intro; apply H2; now right.
        -- intros [[->|H1] H2]; [now left|].
           destruct (string_dec k c) as [->|Hne]; [now left|right].
           split; [exact H1|]. intros [E|H3]; contradiction.
Qed.

Lemma columns_drop_duplicate_columns df :
  NoDup (columns (drop_duplicate_columns df)) /\
  forall c, In c (columns (drop_duplicate_columns df)) <-> In c (columns df).
Proof.
  destruct (first_occurrences [] (cols df)) as [Hnd Hin].
  split; [exact Hnd|]. intro c.
  unfold columns, drop_duplicate_columns, loc_columns, duplicated; simpl.
  unfold columns in Hin. rewrite Hin. simpl. tauto.
Qed.

Lemma columns_organize_columns df :
  NoDup (columns df) ->
  NoDup (columns (organize_columns df)) /\
  forall c, In c (columns (organize_columns df)) <-> In c (columns df).
Proof.
  intro Hnd. unfold organize_columns.
  rewrite columns_getitem_list; [|exact Hnd|].
  - split; [now apply NoDup_new_order|]. intro c. apply new_order_same_labels.
  - intros l Hl. now apply (new_order_same_labels df).
Qed.

Lemma columns_drop_columns L df :
  columns (drop_columns L df) = filter (fun c => negb (Py.mem c L)) (columns df).
Proof.
  unfold columns, drop_columns; simpl.
  induction (cols df) as [|[k s] cs IH]; [reflexivity|]. simpl.
  destruct (Py.mem k L); simpl; now rewrite IH.
Qed.

Lemma columns_named_unique c df :
  NoDup (columns df) -> In c (columns df) -> exists s, columns_named c df = [s].
Proof.
  intros Hnd Hin. pose proof (labels_of_unique_label c (cols df) Hnd Hin) as H.
  unfold columns_named.
  destruct (filter (fun x => String.eqb (fst x) c) (cols df)) as [|[k s] [|c2 rest]];
    try discriminate.
  now exists s.
Qed.

Lemma matching_cols_same_columns b df df' :
  columns df' = columns df -> matching_cols b df' = matching_cols b df.
Proof. unfold matching_cols. now intros ->. Qed.

Lemma clean_tag_columns_no_indexed df :
  no_indexed_cols df = true -> clean_tag_columns df = Ok df.
Proof.
  unfold no_indexed_cols, clean_tag_columns, tag_patterns. simpl.
  unfold collapse_group.
  destruct (matching_cols "tag_slugs_" df) eqn:E1; [|discriminate].
  destruct (matching_cols "service_slugs_" df) eqn:E2; [|discriminate].
  destruct (matching_cols "dietary_slugs_" df) eqn:E3; [|discriminate].
  intros _. simpl. rewrite E2. simpl. now rewrite E3.
Qed.

Lemma no_indexed_cols_same_columns df df' :
  columns df' = columns df -> no_indexed_cols df' = no_indexed_cols df.
Proof.
  intro H. unfold no_indexed_cols.
  induction tag_patterns as [|g gs IH]; [reflexivity|]. simpl.
  now rewrite (matching_cols_same_columns (snd g) df df' H), IH.
Qed.

Lemma prepare_ok df :
  single_numeric_cols (renamed df) = true ->
  no_indexed_cols (renamed df) = true ->
  exists u,
    prepare df = Ok u /\ NoDup (columns u) /\
    forall c, In c (columns u) <->
              In c (columns (renamed df)) /\ ~ In c cols_to_drop.
Proof.
  intros Hsingle Hnone. unfold prepare. fold (renamed df).
  destruct (convert_numeric_ok (renamed df) Hsingle)
    as [df2 [Hconv [_ [Hcols2 _]]]].
  rewrite Hconv. cbn [bind].
  rewrite clean_tag_columns_no_indexed
    by now rewrite (no_indexed_cols_same_columns _ _ Hcols2).
  cbn [bind]. eexists. split; [reflexivity|].
  destruct (columns_drop_duplicate_columns df2) as [Hnd3 Hin3].
  destruct (columns_organize_columns _ Hnd3) as [Hnd4 Hin4].
  rewrite columns_drop_columns. split.
  - now apply NoDup_filter.
  - intro c. rewrite filter_In, negb_true_iff, mem_false, filter_In, mem_In.
    rewrite Hin4, Hin3, Hcols2. tauto.
Qed.

Lemma sort_values_category_price u :
  NoDup (columns u) ->
  (In "category" (columns u) -> In "price" (columns u) ->
   exists t, sort_values ["category"; "price"] u = Ok t) /\
  (~ In "category" (columns u) ->
   sort_values ["category"; "price"] u = Raise (KeyError "category")) /\
  (In "category" (columns u) -> ~ In "price" (columns u) ->
   sort_values ["category"; "price"] u = Raise (KeyError "price")).
Proof.
  intro Hnd. unfold sort_values. simpl. unfold key_column.
  split; [|split].
  - intros Hc Hp.
    destruct (columns_named_unique _ _ Hnd Hc) as [s1 ->].
    destruct (columns_named_unique _ _ Hnd Hp) as [s2 ->].
    simpl. eexists. reflexivity.
  - intro Hc. now rewrite (columns_named_absent _ _ Hc).
  - intros Hc Hp.
    destruct (columns_named_unique _ _ Hnd Hc) as [s1 ->].
    now rewrite (columns_named_absent _ _ Hp).
Qed.

(** C3, as stated, fails.  An empty batch raises [KeyError "category"],
    the very exception a batch without a category raises: there is no
    signal of its own for the empty batch.  And a batch of one record that
    has its category and its price raises a [TypeError], because a cell of
    a column matching [tag_slugs_\d+] holds a number, which [str.join]
    refuses. *)
Lemma reconcile_raises_otherwise :
  reconcile [] = Raise (KeyError "category") /\
  reconcile no_category = Raise (KeyError "category") /\
  numeric_in_group <> [] /\
  In "category" (columns (renamed (DataFrame_of_records numeric_in_group))) /\
  In "price" (columns (renamed (DataFrame_of_records numeric_in_group))) /\
  reconcile numeric_in_group = Raise TypeError.
Proof.
  split; [reflexivity|]. split; [reflexivity|].
  split; [discriminate|]. split; [vm_compute; auto|].
  split; [vm_compute; auto|]. reflexivity.
Qed.

(** C3, amended.  An empty batch raises the missing-column error
    [KeyError "category"]; the code has no separate signal for it.  For a
    frame that, after renaming, bears no label of the numeric set twice and
    has no label matching an indexed-group pattern, [process_menu_data]
    returns a frame when the labels category and price both occur, and
    raises the [KeyError] of the first of the two that is absent
    otherwise. *)
Theorem process_menu_data_raises :
  reconcile [] = Raise (KeyError "category") /\
  forall df,
    single_numeric_cols (renamed df) = true ->
    no_indexed_cols (renamed df) = true ->
    (In "category" (columns (renamed df)) -> In "price" (columns (renamed df)) ->
     exists t, process_menu_data df = Ok t) /\
    (~ In "category" (columns (renamed df)) ->
     process_menu_data df = Raise (KeyError "category")) /\
    (In "category" (columns (renamed df)) -> ~ In "price" (columns (renamed df)) ->
     process_menu_data df = Raise (KeyError "price")).
Proof.
  split; [reflexivity|].
  intros df Hsingle Hnone.
  destruct (prepare_ok df Hsingle Hnone) as [u [Hu [Hnd Hin]]].
  destruct (sort_values_category_price u Hnd) as [Hok [Hnocat Hnoprice]].
  unfold process_menu_data. rewrite Hu. simpl.
  assert (Hcat : In "category" (columns u) <-> In "category" (columns (renamed df))).
  { rewrite Hin. split; [tauto|]. intro H. split; [exact H|].
    simpl. intuition discriminate. }
  assert (Hprice : In "price" (columns u) <-> In "price" (columns (renamed df))).
  { rewrite Hin. split; [tauto|]. intro H. split; [exact H|].
    simpl. intuition discriminate. }
  split; [|split].
  - intros Hc Hp. apply Hok; tauto.
  - intro Hc. apply Hnocat. tauto.
  - intros Hc Hp. apply Hnoprice; tauto.
Qed.

Lemma process_menu_data_raises_witness :
  exists t, process_menu_data (DataFrame_of_records two_dishes) = Ok t.
Proof.
  apply (proj2 process_menu_data_raises (DataFrame_of_records two_dishes)
           eq_refl eq_refl).
  - vm_compute. auto.
  - vm_compute. auto.
Defined.

(** ** Order of the steps of [process_menu_data] *)

(** On the labels as they come from flattening, [clean_tag_columns] does
    collapse the group. *)
Lemma clean_tag_columns_tagged_dish :
  clean_tag_columns (DataFrame_of_records tagged_dish) =
  Ok (mkDF 1 [ ("category", [VStr "Mains"]); ("price", [VStr "80"]);
               ("tag_slugs", [VStr "veg, spicy"]) ]).
Proof. reflexivity. Qed.

(** C1.  In [process_menu_data] the labels are renamed before
    [clean_tag_columns] looks for [tag_slugs_\d+]: the three tag columns are
    all called [tag_slugs] by then, none matches, nothing is joined, and
    the removal of duplicate labels keeps the first of them.  The row comes
    out with [tag_slugs = "veg"], not ["veg, spicy"]. *)
Theorem reconcile_indexed_group_not_collapsed :
  columns (renamed (DataFrame_of_records tagged_dish)) =
    ["category"; "price"; "tag_slugs"; "tag_slugs"; "tag_slugs"] /\
  matching_cols "tag_slugs_" (renamed (DataFrame_of_records tagged_dish)) = [] /\
  reconcile tagged_dish =
  Ok (mkDF 1 [ ("category", [VStr "Mains"]); ("price", [VInt 80]);
               ("tag_slugs", [VStr "veg"]) ]).
Proof. repeat split; vm_compute; reflexivity. Qed.

(** Removing duplicate labels keeps, in a frame, the first column of each
    label. *)
Lemma drop_duplicate_columns_first df c :
  In c (columns df) ->
  columns_named c (drop_duplicate_columns df) = [series c df].
Proof.
  unfold drop_duplicate_columns, loc_columns, columns_named, series, columns,
    duplicated; simpl.
  assert (Hgen : forall seen cs,
    ~ In c seen -> In c (map fst cs) ->
    map snd (filter (fun x : string * list value => String.eqb (fst x) c)
               (select_mask (map negb (duplicated_from seen (map fst cs))) cs)) =
    [hd [] (map snd (filter (fun x => String.eqb (fst x) c) cs))]).
  { intros seen cs; revert seen.
    induction cs as [|[k s] cs IH]; intros seen Hseen Hin; [contradiction|].
    simpl map. simpl duplicated_from. rewrite select_mask_cons.
    destruct (String.eqb_spec k c) as [->|Hne].
    - apply mem_false in Hseen. rewrite Hseen. simpl.
      rewrite String.eqb_refl. simpl. f_equal.
      destruct (first_occurrences (c :: seen) cs) as [_ Hkept].
      assert (Hnone : ~ In c (map fst (select_mask
                 (map negb (duplicated_from (c :: seen) (map fst cs))) cs))).
      { rewrite Hkept. simpl. tauto. }
      apply (columns_named_absent c (mkDF 0 _)) in Hnone.
      exact Hnone.
    - assert (Hin' : In c (map fst cs))
        by (destruct Hin as [E|H]; [simpl in E; contradiction|exact H]).
      assert (Hseen' : ~ In c (k :: seen))
        by (intros [E|H]; [contradiction|contradiction]).
      simpl filter at 2.
      destruct (String.eqb_spec k c); [contradiction|].
      destruct (Py.mem k seen); simpl.
      + now apply IH.
      + destruct (String.eqb_spec k c); [contradiction|]. now apply IH. }
  intro Hin. apply Hgen; [intros []|exact Hin].
Qed.

(** C8.  A record with the keys [price] and [item_price] gives two columns
    labelled [price] after renaming.  [df['price']] is then a frame of two
    columns, [pd.to_numeric] raises a [TypeError] on it, and the line that
    removes duplicate labels is never reached: no table comes out. *)
Theorem reconcile_duplicate_price_raises :
  columns (renamed (DataFrame_of_records two_prices)) =
    ["category"; "price"; "price"] /\
  convert_numeric (renamed (DataFrame_of_records two_prices)) = Raise TypeError /\
  reconcile two_prices = Raise TypeError.
Proof. repeat split; vm_compute; reflexivity. Qed.

(* ================================================================== *)
(** * Further properties of scraper.py *)

(** ** Flattening *)

Lemma prefix_append a r : String.prefix a (a +:+ r) = true.
Proof.
  induction a as [|c a IH]; simpl; [now destruct r|].
  destruct (ascii_dec c c); [exact IH|contradiction].
Qed.

Lemma prefix_inv a k : String.prefix a k = true -> exists r, k = a +:+ r.
Proof.
  revert k; induction a as [|c a IH]; intros k H.
  - now exists k.
  - destruct k as [|c' k]; simpl in H; [discriminate|].
    destruct (ascii_dec c c') as [->|]; [|discriminate].
    destruct (IH k H) as [r ->]. now exists r.
Qed.

Lemma prefix_trans_append a b k :
  String.prefix (a +:+ b) k = true -> String.prefix a k = true.
Proof.
  intro H. apply prefix_inv in H as [r ->].
  rewrite append_assoc. apply prefix_append.
Qed.

Lemma prefix_refl a : String.prefix a a = true.
Proof.
  induction a as [|c a IH]; simpl; [reflexivity|].
  destruct (ascii_dec c c); [exact IH|contradiction].
Qed.

Lemma prefix_sep a r : String.prefix (a +:+ "_") (a +:+ String "_" r) = true.
Proof.
  induction a as [|c a IH]; simpl.
  - destruct (ascii_dec "_" "_"); [now destruct r|contradiction].
  - destruct (ascii_dec c c); [exact IH|contradiction].
Qed.

Lemma in_keys_dict_update {V : Type} k (items : list (string * V)) (d : dict V) :
  In k (keys (dict_update items d)) <-> In k (map fst items) \/ In k (keys d).
Proof.
  revert d; induction items as [|kv items IH]; intro d; simpl; [tauto|].
  rewrite IH, in_keys_dict_set. intuition.
Qed.

Lemma in_keys_py_dict {V : Type} k (items : list (string * V)) :
  In k (keys (py_dict items)) <-> In k (map fst items).
Proof. unfold py_dict. rewrite in_keys_dict_update. simpl. tauto. Qed.

Lemma flatten_list_keys new_key i l k :
  In k (map fst (flatten_list new_key i l)) ->
  String.prefix (new_key +:+ "_") k = true.
Proof.
  revert i; induction l as [|e l IH]; intros i H; [contradiction|].
  destruct e as [x| |]; simpl in H; try (now apply (IH (S i))).
  destruct H as [<-|H]; [|now apply (IH (S i))].
  apply prefix_sep.
Qed.

Lemma flatten_value_keys v :
  forall new_key k,
    In k (map fst (flatten_value v new_key)) -> String.prefix new_key k = true.
Proof.
  induction v as [x|l _|d IH] using json_ind; intros new_key k H.
  - simpl in H. destruct H as [<-|[]]. apply prefix_refl.
  - simpl in H. apply flatten_list_keys in H.
    now apply prefix_trans_append in H.
  - rewrite flatten_value_dict in H. unfold flatten_dict in H.
    apply (proj1 (in_keys_py_dict k (flatten_items d new_key))) in H.
    unfold flatten_items in H.
    apply in_map_iff in H as [[k0 x] [Heq Hk]]. simpl in Heq; subst k0.
    apply in_flat_map in Hk as [[k' v'] [Hin Hk]].
    apply (in_map fst) in Hk. simpl in Hk.
    rewrite Forall_forall in IH. specialize (IH _ Hin _ _ Hk). simpl in IH.
    unfold new_key_of in IH.
    destruct (String.eqb_spec new_key "") as [->|_]; [now destruct k|].
    now apply prefix_trans_append in IH.
Qed.

(** X1.  Called with a non-empty parent key, [flatten_dict] puts every key
    of its result under that parent: each key starts with [parent_key_]. *)
Theorem flatten_dict_under_parent :
  forall d parent_key k,
    parent_key <> "" ->
    In k (keys (flatten_dict d parent_key)) ->
    String.prefix (parent_key +:+ "_") k = true.
Proof.
  intros d parent_key k Hne H. unfold flatten_dict in H.
  apply (proj1 (in_keys_py_dict k (flatten_items d parent_key))) in H.
  unfold flatten_items in H.
  apply in_map_iff in H as [[k0 x] [Heq Hk]]. simpl in Heq; subst k0.
  apply in_flat_map in Hk as [[k' v'] [Hin Hk]].
  apply (in_map fst) in Hk. simpl in Hk.
  apply flatten_value_keys in Hk. unfold new_key_of in Hk.
  destruct (String.eqb_spec parent_key ""); [contradiction|].
  apply prefix_inv in Hk as [r ->].
  rewrite append_assoc. apply prefix_sep.
Qed.

Lemma flatten_dict_under_parent_witness :
  String.prefix "rating_" "rating_value" = true.
Proof.
  apply (flatten_dict_under_parent
           [("value", JScalar (VStr "4.1")); ("votes", JScalar (VInt 12))]
           "rating" "rating_value").
  - discriminate.
  - vm_compute. auto.
Defined.

Lemma flatten_items_lift_record r parent_key :
  flatten_items (lift_record r) parent_key =
  map (fun kv => (new_key_of parent_key (fst kv), snd kv)) r.
Proof.
  unfold flatten_items, lift_record.
  induction r as [|[k v] r IH]; [reflexivity|]. simpl. now rewrite IH.
Qed.

(** X2.  Flattening a record that is already flat gives the record back: a
    mapping of scalars under distinct keys is returned as it is, keys,
    values and order. *)
Theorem flatten_dict_flat_record :
  forall r : dict value,
    NoDup (keys r) -> flatten_dict (lift_record r) "" = r.
Proof.
  intros r Hnd. unfold flatten_dict. rewrite flatten_items_lift_record.
  assert (E : map (fun kv : string * value => (new_key_of "" (fst kv), snd kv)) r = r).
  { rewrite <- (map_id r) at 2. apply map_ext. now intros [k v]. }
  rewrite E. now apply py_dict_distinct.
Qed.

Lemma flatten_dict_flat_record_witness :
  flatten_dict (lift_record [("name", VStr "Rice"); ("price", VInt 80)]) "" =
  [("name", VStr "Rice"); ("price", VInt 80)].
Proof.
  apply flatten_dict_flat_record.
  repeat (constructor; [simpl; intuition discriminate|]). constructor.
Defined.

(** ** Renaming the labels of flattened sequences *)

Lemma list_ascii_of_string_append a b :
  list_ascii_of_string (a +:+ b) = list_ascii_of_string a ++ list_ascii_of_string b.
Proof. induction a as [|c a IH]; simpl; [reflexivity|now rewrite IH]. Qed.

Lemma string_of_uint_digits d :
  forallb Py.is_digit (list_ascii_of_string (NilEmpty.string_of_uint d)) = true.
Proof. induction d; simpl; auto. Qed.

Lemma revapp_not_nil d d' : d' <> Decimal.Nil -> Decimal.revapp d d' <> Decimal.Nil.
Proof.
  revert d'; induction d; intros d' H; simpl; try exact H; apply IHd; discriminate.
Qed.

Lemma little_succ_not_nil d : Decimal.Little.succ d <> Decimal.Nil.
Proof. destruct d; simpl; discriminate. Qed.

Lemma to_little_uint_not_nil n acc :
  acc <> Decimal.Nil -> Nat.to_little_uint n acc <> Decimal.Nil.
Proof.
  revert acc; induction n as [|n IH]; intros acc H; simpl; [exact H|].
  apply IH, little_succ_not_nil.
Qed.

Lemma to_uint_not_nil n : Nat.to_uint n <> Decimal.Nil.
Proof.
  unfold Nat.to_uint, Decimal.rev.
  destruct (Nat.to_little_uint n Decimal.zero) as [|d|d|d|d|d|d|d|d|d|d] eqn:E;
    [exfalso; revert E; apply to_little_uint_not_nil; discriminate|..];
    simpl; apply revapp_not_nil; discriminate.
Qed.

Lemma str_of_nat_nonempty i : Py.str_of_nat i <> "".
Proof.
  unfold Py.str_of_nat. pose proof (to_uint_not_nil i) as H.
  destruct (Nat.to_uint i); [contradiction|..]; discriminate.
Qed.

(** *** Elements of a sequence *)

Lemma append_inj_l p a b : p +:+ a = p +:+ b -> a = b.
Proof. induction p as [|c p IH]; simpl; intro H; [exact H|]. inversion H. auto. Qed.

Lemma str_of_nat_inj i j : Py.str_of_nat i = Py.str_of_nat j -> i = j.
Proof.
  unfold Py.str_of_nat. intro H.
  assert (E : Some (Nat.to_uint i) = Some (Nat.to_uint j))
    by (rewrite <- !NilEmpty.usu; now rewrite H).
  inversion E as [E']. apply (f_equal Nat.of_uint) in E'.
  now rewrite !DecimalNat.Unsigned.of_to in E'.
Qed.

Lemma index_key_inj p i j :
  p +:+ "_" +:+ Py.str_of_nat i = p +:+ "_" +:+ Py.str_of_nat j -> i = j.
Proof.
  intro H. apply append_inj_l in H. apply (append_inj_l "_") in H.
  now apply str_of_nat_inj.
Qed.

Lemma flatten_list_entries p l :
  forall i,
    flatten_list p i l =
    flat_map (fun ie => match snd ie with
                        | JScalar x => [(p +:+ "_" +:+ Py.str_of_nat (fst ie), x)]
                        | _ => []
                        end)
             (combine (seq i (List.length l)) l).
Proof.
  induction l as [|e l IH]; intro i; [reflexivity|].
  cbn [List.length seq combine flat_map snd fst]. rewrite <- IH.
  now destruct e.
Qed.

Lemma flatten_list_indices p l :
  forall i k,
    In k (map fst (flatten_list p i l)) ->
    exists j, i <= j /\ k = p +:+ "_" +:+ Py.str_of_nat j.
Proof.
  induction l as [|e l IH]; intros i k Hin; [contradiction|].
  assert (Htail : In k (map fst (flatten_list p (S i) l)) ->
                  exists j, i <= j /\ k = p +:+ "_" +:+ Py.str_of_nat j).
  { intro H. destruct (IH (S i) k H) as [j [Hj ->]]. exists j. split; [lia|reflexivity]. }
  destruct e as [x|l'|d']; simpl in Hin; [|now apply Htail|now apply Htail].
  destruct Hin as [<-|Hin]; [|now apply Htail].
  exists i. split; [lia|reflexivity].
Qed.

Lemma index_key_not_later p i n l :
  i < n -> ~ In (p +:+ "_" +:+ Py.str_of_nat i) (map fst (flatten_list p n l)).
Proof.
  intros Hlt Hin. apply flatten_list_indices in Hin as [j [Hj E]].
  apply index_key_inj in E. lia.
Qed.

Lemma NoDup_flatten_list p l :
  forall i, NoDup (map fst (flatten_list p i l)).
Proof.
  induction l as [|e l IH]; intro i; [constructor|].
  destruct e as [x|l'|d']; simpl; [|apply IH|apply IH].
  constructor; [|apply IH]. apply index_key_not_later. lia.
Qed.

Lemma keys_rev {V : Type} (items : list (string * V)) k :
  In k (keys (rev items)) <-> In k (keys items).
Proof. unfold keys. rewrite map_rev. symmetry. apply in_rev. Qed.

Lemma dict_get_absent {V : Type} k (d : dict V) :
  ~ In k (keys d) -> dict_get k d = None.
Proof.
  induction d as [|[k' v] d IH]; simpl; intro H; [reflexivity|].
  destruct (String.eqb_spec k k') as [->|Hne]; [exfalso; apply H; now left|].
  apply IH. intro Hin. apply H. now right.
Qed.

(** An entry that no later item overwrites is the last written. *)
Lemma last_written_entry {V : Type} k (x : V) before after :
  ~ In k (map fst after) ->
  last_written k (before ++ (k, x) :: after) = Some x.
Proof.
  intro Hlater. unfold last_written.
  rewrite rev_app_distr. simpl. rewrite <- app_assoc. simpl.
  rewrite dict_get_app.
  rewrite dict_get_absent by (rewrite keys_rev; exact Hlater).
  simpl. now rewrite String.eqb_refl.
Qed.

(** An entry under another key does not change what is written last. *)
Lemma last_written_other {V : Type} k k' (x : V) before after :
  k' <> k ->
  last_written k' (before ++ (k, x) :: after) = last_written k' (before ++ after).
Proof.
  intro Hne. unfold last_written.
  rewrite !rev_app_distr. simpl. rewrite <- app_assoc. simpl.
  rewrite !dict_get_app. simpl.
  destruct (String.eqb_spec k' k); [contradiction|reflexivity].
Qed.

Lemma flatten_items_sequence parent d1 k l1 e l2 d2 :
  flatten_items (d1 ++ (k, JList (l1 ++ e :: l2)) :: d2) parent =
  (flatten_items d1 parent ++ flatten_list (new_key_of parent k) 0 l1)
  ++ match e with
     | JScalar x =>
         [(new_key_of parent k +:+ "_" +:+ Py.str_of_nat (List.length l1), x)]
     | _ => []
     end
  ++ flatten_list (new_key_of parent k) (S (List.length l1)) l2
  ++ flatten_items d2 parent.
Proof.
  rewrite flatten_items_app. unfold flatten_items at 2.
  cbn [flat_map snd fst flatten_value]. fold (flatten_items d2 parent).
  rewrite flatten_list_app. rewrite <- !app_assoc. simpl Nat.add.
  do 2 f_equal. now destruct e.
Qed.

(** C5.  The flat output of a record that holds one sequence is exactly the
    entries [p_i -> e] of its scalar elements [e] at their indices [i]:
    the elements that are mappings or sequences add no key.  In any
    record, with the element [e] at index [i] of a sequence under prefix
    [p]: when [e] is a mapping or a sequence, the output is the one of the
    record where [e] is the empty mapping; when [e] is a scalar, the key
    [p_i] is in the output, it holds [e] unless a later key of the record
    writes [p_i] again, and the other keys hold what they hold when [e] is
    left out.  In [mixed_sequence] the mapping and the sequence vanish with
    their leaves, and the scalars stay under their own indices 1 and 3. *)
Theorem flatten_dict_sequence_element :
  (forall parent k l,
     flatten_dict [(k, JList l)] parent = scalar_entries (new_key_of parent k) l) /\
  (forall parent d1 k l1 e l2 d2,
     let key := new_key_of parent k +:+ "_" +:+ Py.str_of_nat (List.length l1) in
     let out := flatten_dict (d1 ++ (k, JList (l1 ++ e :: l2)) :: d2) parent in
     let without :=
       flatten_dict (d1 ++ (k, JList (l1 ++ JDict [] :: l2)) :: d2) parent in
     match e with
     | JScalar x =>
         In key (keys out) /\
         (~ In key (keys (flatten_items d2 parent)) -> dict_get key out = Some x) /\
         (forall k', k' <> key -> dict_get k' out = dict_get k' without)
     | JList _ | JDict _ => out = without
     end) /\
  flatten_dict mixed_sequence "" = [("tags_1", VStr "veg"); ("tags_3", VStr "spicy")].
Proof.
  split; [|split; [|reflexivity]].
  - intros parent k l. unfold flatten_dict, flatten_items, scalar_entries.
    cbn [flat_map snd fst flatten_value]. rewrite app_nil_r.
    rewrite py_dict_distinct by apply NoDup_flatten_list.
    apply flatten_list_entries.
  - intros parent d1 k l1 e l2 d2 key out without.
    unfold out, without, flatten_dict. rewrite !flatten_items_sequence.
    destruct e as [x|l'|d']; [|reflexivity|reflexivity].
    fold key. split; [|split].
    + apply in_keys_py_dict. rewrite !map_app. apply in_or_app. right.
      simpl. now left.
    + intro Hlater. rewrite dict_get_py_dict. cbn [app].
      apply last_written_entry. rewrite map_app. intro Hin.
      apply in_app_or in Hin as [Hin|Hin]; [|exact (Hlater Hin)].
      revert Hin. apply index_key_not_later. lia.
    + intros k' Hne. rewrite !dict_get_py_dict. cbn [app].
      now apply last_written_other.
Qed.

Lemma drop_while_digits ds rest :
  forallb Py.is_digit ds = true ->
  Py.drop_while Py.is_digit (ds ++ "_"%char :: rest) = "_"%char :: rest.
Proof.
  induction ds as [|c ds IH]; simpl; intro H; [reflexivity|].
  apply andb_true_iff in H as [Hc H]. rewrite Hc. now apply IH.
Qed.

Lemma forallb_rev {A : Type} (p : A -> bool) l : forallb p (rev l) = forallb p l.
Proof.
  induction l as [|x l IH]; [reflexivity|]. simpl.
  rewrite forallb_app, IH. simpl. rewrite andb_true_r. apply andb_comm.
Qed.

Lemma digit_not_newline c : Py.is_digit c = true -> Ascii.eqb c Py.newline = false.
Proof.
  intro H. destruct (Ascii.eqb_spec c Py.newline) as [->|]; [|reflexivity].
  discriminate.
Qed.

(** The substitution removes a trailing [_<digits>], whatever comes
    before. *)
Lemma re_sub_digit_suffix_indexed k ds :
  ds <> "" -> forallb Py.is_digit (list_ascii_of_string ds) = true ->
  Py.re_sub_digit_suffix (k +:+ "_" +:+ ds) = k.
Proof.
  intros Hne Hds.
  assert (Hcs : rev (list_ascii_of_string (k +:+ "_" +:+ ds)) =
                rev (list_ascii_of_string ds) ++ "_"%char :: rev (list_ascii_of_string k)).
  { rewrite !list_ascii_of_string_append, !rev_app_distr. simpl.
    now rewrite <- app_assoc. }
  unfold Py.re_sub_digit_suffix. rewrite Hcs. clear Hcs.
  assert (Hrds : forallb Py.is_digit (rev (list_ascii_of_string ds)) = true)
    by now rewrite forallb_rev.
  destruct (rev (list_ascii_of_string ds)) as [|c rds'] eqn:E.
  - exfalso. apply Hne.
    apply (f_equal (@rev ascii)) in E. rewrite rev_involutive in E. simpl in E.
    rewrite <- (string_of_list_ascii_of_string ds), E. reflexivity.
  - pose proof Hrds as Hall. simpl in Hrds.
    apply andb_true_iff in Hrds as [Hc Hrest].
    cbn [app]. rewrite (digit_not_newline c Hc). cbv beta iota. rewrite Hc.
    change (c :: rds' ++ "_"%char :: rev (list_ascii_of_string k))
      with ((c :: rds') ++ "_"%char :: rev (list_ascii_of_string k)).
    rewrite (drop_while_digits _ _ Hall).
    rewrite Ascii.eqb_refl, app_nil_r, rev_involutive.
    apply string_of_list_ascii_of_string.
Qed.

(** X3.  The label of element [i] of a flattened sequence loses its index
    when it is renamed: [clean_column_name] maps [k_i] to what it maps [k]
    to once the digit suffix is out of the way.  So all elements of one
    sequence get the same label. *)
Theorem clean_column_name_sequence_element :
  forall k i,
    clean_column_name (k +:+ "_" +:+ Py.str_of_nat i) =
    let col := Py.replace "item_" "" k in
    if String.eqb col "name" then "item_name" else col.
Proof.
  intros k i. unfold clean_column_name.
  rewrite re_sub_digit_suffix_indexed; [reflexivity| |].
  - apply str_of_nat_nonempty.
  - apply string_of_uint_digits.
Qed.

(** X4.  After the renaming, the column of element [i] of a tag list bears
    the name of its group, for each of the three groups and every index,
    and that name does not match the group's pattern: the columns
    [clean_tag_columns] is written to collect are out of its reach when
    [process_menu_data] calls it. *)
Theorem indexed_group_labels_after_renaming :
  forall new_col base i,
    In (new_col, base) tag_patterns ->
    Py.re_match_indexed base (base +:+ Py.str_of_nat i) = true /\
    clean_column_name (base +:+ Py.str_of_nat i) = new_col /\
    Py.re_match_indexed base new_col = false.
Proof.
  intros new_col base i Hg.
  assert (Hmatch : forall b, Py.re_match_indexed b (b +:+ Py.str_of_nat i) = true).
  { intro b. unfold Py.re_match_indexed. rewrite prefix_append. simpl.
    pose proof (str_of_nat_nonempty i) as Hne.
    pose proof (string_of_uint_digits (Nat.to_uint i)) as Hd.
    fold (Py.str_of_nat i) in Hd.
    destruct (Py.str_of_nat i) as [|c r]; [contradiction|].
    simpl in Hd. apply andb_true_iff in Hd as [Hc _].
    assert (Hget : forall b0, String.get (String.length b0) (b0 +:+ String c r) = Some c)
      by (induction b0; simpl; auto).
    now rewrite Hget. }
  split; [apply Hmatch|].
  simpl in Hg. destruct Hg as [H|[H|[H|[]]]]; inversion H; subst; clear H;
    (split; [|reflexivity]).
  - apply (clean_column_name_sequence_element "tag_slugs" i).
  - apply (clean_column_name_sequence_element "service_slugs" i).
  - apply (clean_column_name_sequence_element "dietary_slugs" i).
Qed.

Lemma indexed_group_labels_after_renaming_witness :
  clean_column_name ("tag_slugs_" +:+ Py.str_of_nat 12) = "tag_slugs".
Proof.
  apply (indexed_group_labels_after_renaming "tag_slugs" "tag_slugs_" 12).
  simpl. auto.
Defined.

(** ** Steps of [process_menu_data] *)

Lemma select_mask_all {A : Type} (xs : list A) (mask : list bool) :
  List.length mask = List.length xs -> forallb (fun b => b) mask = true ->
  select_mask mask xs = xs.
Proof.
  revert mask; induction xs as [|x xs IH]; intros [|m mask] Hlen Hall;
    try discriminate; [reflexivity|].
  simpl in Hall. apply andb_true_iff in Hall as [-> Hall].
  rewrite select_mask_cons. f_equal. apply IH; [now inversion Hlen|exact Hall].
Qed.

Lemma duplicated_from_distinct seen labels :
  NoDup labels -> (forall l, In l labels -> ~ In l seen) ->
  forallb (fun b => b) (map negb (duplicated_from seen labels)) = true.
Proof.
  revert seen; induction labels as [|l labels IH]; intros seen Hnd Hsep;
    [reflexivity|].
  inversion Hnd as [|? ? Hnotin Hnd']; subst. simpl.
  rewrite (proj2 (mem_false l seen)) by (apply Hsep; now left). simpl.
  apply IH; [exact Hnd'|].
  intros l' Hl' [E|Hin]; [subst; contradiction|].
  apply (Hsep l'); [now right|exact Hin].
Qed.

Lemma length_duplicated_from seen labels :
  List.length (duplicated_from seen labels) = List.length labels.
Proof.
  revert seen; induction labels as [|l labels IH]; intro seen; simpl;
    [reflexivity|now rewrite IH].
Qed.

(** X5.  The removal of duplicate labels (line 144) keeps the rows, leaves
    distinct labels, the same set of labels, and under each label the first
    column that bore it; a frame whose labels are distinct comes back
    unchanged. *)
Theorem drop_duplicate_columns_keeps_first :
  forall df,
    nrows (drop_duplicate_columns df) = nrows df /\
    NoDup (columns (drop_duplicate_columns df)) /\
    (forall c, In c (columns (drop_duplicate_columns df)) <-> In c (columns df)) /\
    (forall c, In c (columns df) ->
               columns_named c (drop_duplicate_columns df) = [series c df]) /\
    (NoDup (columns df) -> drop_duplicate_columns df = df).
Proof.
  intro df. split; [reflexivity|].
  destruct (columns_drop_duplicate_columns df) as [Hnd Hin].
  split; [exact Hnd|]. split; [exact Hin|].
  split; [intros c Hc; now apply drop_duplicate_columns_first|].
  intro Hdistinct. destruct df as [n cs].
  unfold drop_duplicate_columns, loc_columns, columns, duplicated in *. simpl in *.
  f_equal. apply select_mask_all.
  - now rewrite length_map, length_duplicated_from, length_map.
  - apply duplicated_from_distinct; [exact Hdistinct|]. intros l _ [].
Qed.

Lemma convert_numeric_col_nrows df col df' :
  convert_numeric_col df col = Ok df' -> nrows df' = nrows df.
Proof.
  unfold convert_numeric_col.
  destruct (Py.mem col (columns df)); [|now intros [= <-]].
  destruct (columns_named col df) as [|s [|s' rest]]; try discriminate.
  intros [= <-]. apply nrows_setitem.
Qed.

Lemma foldM_nrows {A : Type} (step : DataFrame -> A -> result DataFrame) xs :
  (forall df x df', In x xs -> step df x = Ok df' -> nrows df' = nrows df) ->
  forall df df', foldM step xs df = Ok df' -> nrows df' = nrows df.
Proof.
  induction xs as [|x xs IH]; intros Hstep df df' H; simpl in H.
  - now inversion H.
  - destruct (step df x) as [df1|] eqn:E; [|discriminate]. simpl in H.
    rewrite (IH (fun d y d' Hy => Hstep d y d' (or_intror Hy)) df1 df' H).
    apply (Hstep df x df1 (or_introl eq_refl) E).
Qed.

Lemma convert_numeric_nrows df df' :
  convert_numeric df = Ok df' -> nrows df' = nrows df.
Proof.
  apply foldM_nrows. intros d x d' _. apply convert_numeric_col_nrows.
Qed.

Lemma clean_tag_columns_nrows df df' :
  clean_tag_columns df = Ok df' -> nrows df' = nrows df.
Proof.
  apply foldM_nrows. intros d g d' Hg Hstep.
  eapply collapse_group_nrows; eauto.
Qed.

(** A numeric label borne by two columns makes the loop raise. *)
Lemma foldM_convert_numeric_raises L :
  forall df,
    (exists c, In c L /\ 1 < List.length (columns_named c df)) ->
    foldM convert_numeric_col L df = Raise TypeError.
Proof.
  induction L as [|col L IH]; intros df [c [Hc Hmany]]; [contradiction|].
  simpl. unfold convert_numeric_col at 1.
  destruct (Py.mem col (columns df)) eqn:Hmem.
  - destruct (columns_named col df) as [|s [|s' rest]] eqn:Hnamed;
      [reflexivity| |reflexivity].
    simpl. apply IH. exists c. split.
    + destruct Hc as [->|Hc]; [rewrite Hnamed in Hmany; simpl in Hmany; lia|exact Hc].
    + destruct (String.eqb_spec c col) as [->|Hne];
        [rewrite Hnamed in Hmany; simpl in Hmany; lia|].
      now rewrite columns_named_setitem_other.
  - simpl. apply IH. exists c. split; [|exact Hmany].
    destruct Hc as [->|Hc]; [|exact Hc].
    apply mem_false in Hmem. rewrite (columns_named_absent _ _ Hmem) in Hmany.
    simpl in Hmany. lia.
Qed.

Lemma convert_numeric_not_single df :
  single_numeric_cols df = false -> convert_numeric df = Raise TypeError.
Proof.
  intro H. apply foldM_convert_numeric_raises.
  unfold single_numeric_cols in H.
  assert (Hex : existsb (fun col => negb (Nat.leb (List.length (columns_named col df)) 1))
                  numeric_cols = true).
  { clear -H. induction numeric_cols as [|c L IH]; simpl in *; [discriminate|].
    destruct (Nat.leb (List.length (columns_named c df)) 1); simpl in *; auto. }
  apply existsb_exists in Hex as [c [Hc Hlen]].
  exists c. split; [exact Hc|].
  apply negb_true_iff, Nat.leb_gt in Hlen. exact Hlen.
Qed.

(** X6.  The numeric conversion (lines 136-138) returns a frame exactly when
    no label of the numeric set is borne by two columns; when one is, it
    raises a [TypeError], whatever the cells hold. *)
Theorem convert_numeric_raises_iff :
  forall df,
    (single_numeric_cols df = true -> exists df', convert_numeric df = Ok df') /\
    (single_numeric_cols df = false -> convert_numeric df = Raise TypeError).
Proof.
  intro df. split.
  - intro H. destruct (convert_numeric_ok df H) as [df' [Hrun _]]. now exists df'.
  - apply convert_numeric_not_single.
Qed.

Lemma convert_numeric_raises_iff_witness :
  convert_numeric (renamed (DataFrame_of_records two_prices)) = Raise TypeError.
Proof.
  apply (proj2 (convert_numeric_raises_iff (renamed (DataFrame_of_records two_prices)))).
  reflexivity.
Defined.

(** ** The table [process_menu_data] returns *)

Lemma prepare_inv df u :
  prepare df = Ok u ->
  exists df2 df3,
    convert_numeric (renamed df) = Ok df2 /\
    clean_tag_columns df2 = Ok df3 /\
    u = drop_columns
          (filter (fun col => Py.mem col
                     (columns (organize_columns (drop_duplicate_columns df3))))
                  cols_to_drop)
          (organize_columns (drop_duplicate_columns df3)).
Proof.
  unfold prepare, renamed.
  destruct (convert_numeric (rename_columns clean_column_name df)) as [df2|] eqn:E2;
    [|discriminate]. cbn [bind].
  destruct (clean_tag_columns df2) as [df3|] eqn:E3; [|discriminate]. cbn [bind].
  intros [= <-]. exists df2, df3. repeat split. exact E3.
Qed.

Lemma columns_take order df : columns (take order df) = columns df.
Proof. unfold columns, take; simpl. rewrite map_map. reflexivity. Qed.

Lemma nrows_take_sort_order by_ df :
  nrows (take (sort_order by_ df) df) = nrows df.
Proof.
  simpl. rewrite (Permutation_length (sort_order_perm by_ df)).
  apply length_seq.
Qed.

Lemma prepare_nrows df u : prepare df = Ok u -> nrows u = nrows df.
Proof.
  intro H. apply prepare_inv in H as [df2 [df3 [H2 [H3 ->]]]].
  simpl. apply clean_tag_columns_nrows in H3. apply convert_numeric_nrows in H2.
  rewrite H3, H2. reflexivity.
Qed.

Lemma filter_none {A : Type} (p : A -> bool) l :
  (forall x, In x l -> p x = false) -> filter p l = [].
Proof.
  induction l as [|x l IH]; intro H; [reflexivity|]. simpl.
  rewrite (H x (or_introl eq_refl)). apply IH. intros y Hy. apply H. now right.
Qed.

Lemma filter_all {A : Type} (p : A -> bool) l :
  (forall x, In x l -> p x = true) -> filter p l = l.
Proof.
  induction l as [|x l IH]; intro H; [reflexivity|]. simpl.
  rewrite (H x (or_introl eq_refl)). f_equal. apply IH.
  intros y Hy. apply H. now right.
Qed.

Lemma filter_twice {A : Type} (p q : A -> bool) l :
  filter p (filter q l) = filter (fun x => q x && p x) l.
Proof.
  induction l as [|x l IH]; [reflexivity|]. simpl.
  destruct (q x); simpl; [destruct (p x)|]; now rewrite IH.
Qed.

Lemma prepare_columns df u :
  prepare df = Ok u ->
  NoDup (columns u) /\
  (forall c, In c cols_to_drop -> ~ In c (columns u)) /\
  priority_first (columns u).
Proof.
  intro H. apply prepare_inv in H as [df2 [df3 [_ [_ ->]]]].
  set (d := drop_duplicate_columns df3).
  destruct (columns_drop_duplicate_columns df3) as [Hnd _]. fold d in Hnd.
  destruct (columns_organize_columns d Hnd) as [Hnd' Hin'].
  set (o := organize_columns d) in *.
  set (L := filter (fun col => Py.mem col (columns o)) cols_to_drop).
  set (keep := fun c => negb (Py.mem c L)).
  assert (Hkeep : forall c, keep c = true <-> ~ (In c cols_to_drop /\ In c (columns o))).
  { intro c. unfold keep, L. now rewrite negb_true_iff, mem_false, filter_In, mem_In. }
  assert (Hu : columns (drop_columns L o) = filter keep (columns o))
    by apply columns_drop_columns.
  assert (Hinu : forall c, In c (columns (drop_columns L o)) <->
                           In c (columns o) /\ ~ In c cols_to_drop).
  { intro c. rewrite Hu, filter_In, Hkeep. tauto. }
  split; [rewrite Hu; now apply NoDup_filter|].
  split; [intros c Hc Hin; apply Hinu in Hin; tauto|].
  assert (Ho : columns o =
               filter (fun col => Py.mem col (columns d)) priority_cols
               ++ filter (fun col => negb (Py.mem col priority_cols)) (columns d)).
  { unfold o, organize_columns.
    rewrite columns_getitem_list; [|exact Hnd|].
    - f_equal. now apply other_cols_not_priority.
    - intros l Hl. now apply (new_order_same_labels d). }
  unfold priority_first.
  set (P := filter (fun col => Py.mem col (columns d)) priority_cols) in *.
  set (O := filter (fun col => negb (Py.mem col priority_cols)) (columns d)) in *.
  assert (HP : forall c, In c P -> Py.mem c priority_cols = true).
  { intros c Hc. unfold P in Hc. apply filter_In in Hc as [Hc _]. now apply mem_In. }
  assert (HO : forall c, In c O -> Py.mem c priority_cols = false).
  { intros c Hc. unfold O in Hc. apply filter_In in Hc as [_ Hc].
    now apply negb_true_iff. }
  assert (Hsplit : columns (drop_columns L o) = filter keep P ++ filter keep O)
    by (rewrite Hu, Ho; apply filter_app).
  rewrite Hsplit at 1. f_equal.
  - unfold P. rewrite filter_twice. apply filter_ext_in. intros c Hc.
    apply eq_true_iff_eq. rewrite andb_true_iff, !mem_In, Hkeep, Hinu, Hin'. tauto.
  - rewrite Hsplit, filter_app.
    rewrite (filter_none _ (filter keep P)), (filter_all _ (filter keep O));
      [reflexivity| |].
    + intros c Hc. apply filter_In in Hc as [Hc _]. now rewrite (HO c Hc).
    + intros c Hc. apply filter_In in Hc as [Hc _]. now rewrite (HP c Hc).
Qed.

Lemma named_in_columns c df s : columns_named c df = [s] -> In c (columns df).
Proof.
  intro H. destruct (in_dec string_dec c (columns df)) as [Hin|Hn]; [exact Hin|].
  rewrite (columns_named_absent c df Hn) in H. discriminate.
Qed.

(** X7.  Whenever [process_menu_data] returns a table, the table has as
    many rows as the frame it was given, its labels are distinct, none of
    them is on the list of columns to drop, and category and price are
    among them. *)
Theorem process_menu_data_table :
  forall df t,
    process_menu_data df = Ok t ->
    nrows t = nrows df /\
    NoDup (columns t) /\
    (forall c, In c cols_to_drop -> ~ In c (columns t)) /\
    In "category" (columns t) /\ In "price" (columns t).
Proof.
  intros df t H. apply process_menu_data_inv in H as [u [Hu Hsort]].
  apply sort_values_inv in Hsort as [-> Hkeys].
  destruct (prepare_columns df u Hu) as [Hnd [Hdrop _]].
  rewrite nrows_take_sort_order, columns_take.
  split; [now apply prepare_nrows|]. split; [exact Hnd|]. split; [exact Hdrop|].
  inversion Hkeys as [|? ? [s1 H1] Hrest]; subst.
  inversion Hrest as [|? ? [s2 H2] _]; subst.
  split; eapply named_in_columns; eauto.
Qed.

Lemma process_menu_data_table_witness :
  nrows two_dishes_sorted = nrows (DataFrame_of_records two_dishes).
Proof.
  apply (process_menu_data_table (DataFrame_of_records two_dishes)).
  reflexivity.
Defined.

(** X8.  Whenever [process_menu_data] returns a table, its labels are the
    labels of [priority_cols] that occur, in the order of that list,
    followed by the labels that are not in [priority_cols]. *)
Theorem process_menu_data_column_order :
  forall df t,
    process_menu_data df = Ok t ->
    columns t = filter (fun col => Py.mem col (columns t)) priority_cols
                ++ filter (fun col => negb (Py.mem col priority_cols)) (columns t).
Proof.
  intros df t H. apply process_menu_data_inv in H as [u [Hu Hsort]].
  apply sort_values_inv in Hsort as [-> _]. rewrite columns_take.
  now destruct (prepare_columns df u Hu) as [_ [_ Horder]].
Qed.

Lemma process_menu_data_column_order_witness :
  columns two_dishes_sorted = ["category"; "item_name"; "price"].
Proof.
  apply (process_menu_data_column_order (DataFrame_of_records two_dishes)).
  reflexivity.
Defined.

(** ** [clean_tag_columns] on its own *)

Lemma mapM_as_str_kept x :
  mapM as_str (filter truthy (filter notna x)) =
  if existsb refused x then Raise TypeError else Ok (nonempty_strings x).
Proof.
  induction x as [|v x IH]; [reflexivity|].
  destruct v as [|[|]|z|s]; simpl.
  - exact IH.
  - reflexivity.
  - exact IH.
  - destruct (Z.eqb z 0); simpl; [exact IH|reflexivity].
  - destruct (String.eqb s ""); simpl; [exact IH|].
    rewrite IH. now destruct (existsb refused x).
Qed.

(** X9.  The function applied to each row by [clean_tag_columns]: missing
    cells, empty strings, zeros and [False] are passed over; if a number
    other than 0 or a [True] is left, [str.join] raises a [TypeError];
    otherwise the result is the strings that are not empty, in row order,
    joined by [", "]. *)
Theorem join_row_spec :
  forall x,
    join_row x =
    if existsb refused x then Raise TypeError
    else Ok (VStr (Py.join ", " (nonempty_strings x))).
Proof.
  intro x. unfold join_row. rewrite mapM_as_str_kept.
  now destruct (existsb refused x).
Qed.

Lemma flat_map_ext_In {A B : Type} (f g : A -> list B) l :
  (forall x, In x l -> f x = g x) -> flat_map f l = flat_map g l.
Proof.
  induction l as [|x l IH]; intro H; [reflexivity|]. simpl.
  rewrite (H x (or_introl eq_refl)), IH; [reflexivity|].
  intros y Hy. apply H. now right.
Qed.

Lemma row_getitem_list L df i :
  row (getitem_list L df) i =
  flat_map (fun l => map (fun s => nth i s VNull) (columns_named l df)) L.
Proof.
  unfold row, getitem_list, columns_named; simpl.
  induction L as [|l L IH]; [reflexivity|]. simpl.
  rewrite map_app, IH. f_equal. now rewrite map_map.
Qed.

Lemma columns_setitem n s df :
  columns (setitem n s df) =
  if Py.mem n (columns df) then columns df else columns df ++ [n].
Proof.
  destruct (Py.mem n (columns df)) eqn:Hmem.
  - now apply columns_setitem_present.
  - unfold setitem. rewrite Hmem. unfold columns; simpl. now rewrite map_app.
Qed.

Section CollapseGroupFrame.
Variables (df df1 : DataFrame) (g : string * string).
Hypothesis Hg : In g tag_patterns.
Hypothesis Hstep : collapse_group df g = Ok df1.

(** After the pass of a group no label matches its pattern. *)
Lemma collapse_group_removes : matching_cols (snd g) df1 = [].
Proof.
  destruct (collapse_group_inv df df1 g Hg Hstep) as [[Hnone ->]|[_ [s [_ ->]]]];
    [exact Hnone|].
  unfold matching_cols. rewrite columns_drop_columns, filter_twice.
  apply filter_none. intros c Hc.
  destruct (Py.re_match_indexed (snd g) c) eqn:Hm; [|apply andb_false_r].
  rewrite andb_true_r. apply negb_false_iff, mem_In, in_matching_cols.
  split; [|exact Hm].
  rewrite columns_setitem in Hc.
  destruct (Py.mem (fst g) (columns df)); [exact Hc|].
  apply in_app_or in Hc as [Hc|[<-|[]]]; [exact Hc|].
  now rewrite (group_name_unmatched g g) in Hm.
Qed.

(** The labels that match the pattern of another group are the same
    before and after. *)
Lemma collapse_group_other_matching g' :
  In g' tag_patterns -> g' <> g ->
  matching_cols (snd g') df1 = matching_cols (snd g') df.
Proof.
  intros Hg' Hne.
  destruct (collapse_group_inv df df1 g Hg Hstep) as [[_ ->]|[_ [s [_ ->]]]];
    [reflexivity|].
  unfold matching_cols. rewrite columns_drop_columns, filter_twice.
  rewrite columns_setitem.
  assert (Hsame : forall X,
    filter (fun x => negb (Py.mem x (filter (Py.re_match_indexed (snd g)) (columns df)))
                     && Py.re_match_indexed (snd g') x) X =
    filter (Py.re_match_indexed (snd g')) X).
  { intro X. apply filter_ext. intro c.
    destruct (Py.re_match_indexed (snd g') c) eqn:Hm; [|apply andb_false_r].
    rewrite andb_true_r. apply negb_true_iff, mem_false. rewrite filter_In.
    intros [_ Hm2].
    now rewrite (group_patterns_disjoint g' g c Hg' Hg Hne Hm) in Hm2. }
  rewrite Hsame. destruct (Py.mem (fst g) (columns df)); [reflexivity|].
  rewrite filter_app. simpl.
  rewrite (group_name_unmatched g g' Hg Hg'). apply app_nil_r.
Qed.

Lemma collapse_group_other_cells g' i :
  In g' tag_patterns -> g' <> g ->
  group_cells (snd g') df1 i = group_cells (snd g') df i.
Proof.
  intros Hg' Hne. unfold group_cells.
  rewrite !row_getitem_list, (collapse_group_other_matching g' Hg' Hne).
  apply flat_map_ext_In. intros l Hl.
  apply in_matching_cols in Hl as [_ Hm].
  rewrite (collapse_group_columns_named df df1 g Hg Hstep); [reflexivity| |].
  - intro E. rewrite E in Hm. now rewrite (group_name_unmatched g g') in Hm.
  - now apply (group_patterns_disjoint g' g).
Qed.

(** In the group column, the pass writes what [join_row] makes of the
    cells it reads. *)
Lemma collapse_group_cell i :
  duplicated_as_rows (fst g) df = false ->
  matching_cols (snd g) df <> [] -> i < nrows df ->
  exists v, join_row (group_cells (snd g) df i) = Ok v /\
            nth_error (series (fst g) df1) i = Some v.
Proof.
  intros Hdup Hsome Hi.
  destruct (collapse_group_inv df df1 g Hg Hstep) as [[Hnone _]|[_ [s [Hs ->]]]];
    [contradiction|].
  unfold series. rewrite columns_named_drop_columns.
  2:{ rewrite in_matching_cols. intros [_ Hm].
      now rewrite (group_name_unmatched g g) in Hm. }
  fold (series (fst g) (setitem (fst g) s df)).
  rewrite series_setitem
    by (rewrite duplicated_as_rows_setitem;
        [exact Hdup|exact (apply_rows_length _ _ _ Hs)]).
  unfold apply_rows in Hs.
  set (sub := getitem_list (matching_cols (snd g) df) df) in *.
  assert (Hi' : i < nrows sub) by exact Hi.
  destruct (mapM_nth_error _ _ _ _ _ Hs (nth_error_rows sub i Hi'))
    as [y [Hy Hnth]].
  exists y. split; [exact Hy|exact Hnth].
Qed.
End CollapseGroupFrame.

Lemma group_eq_dec (a b : string * string) : {a = b} + {a <> b}.
Proof. decide equality; apply string_dec. Qed.

Lemma foldM_collapse_removes gs :
  incl gs tag_patterns ->
  forall df df',
    foldM collapse_group gs df = Ok df' ->
    forall g, In g tag_patterns ->
              In g gs \/ matching_cols (snd g) df = [] ->
              matching_cols (snd g) df' = [].
Proof.
  induction gs as [|g0 gs IH]; intros Hincl df df' Hrun g Hg Hcase.
  - inversion Hrun; subst. now destruct Hcase.
  - simpl in Hrun. destruct (collapse_group df g0) as [df1|] eqn:Hstep;
      [|discriminate]. simpl in Hrun.
    assert (Hg0 : In g0 tag_patterns) by (apply Hincl; now left).
    assert (Hincl' : incl gs tag_patterns) by (intros x Hx; apply Hincl; now right).
    apply (IH Hincl' df1 df' Hrun g Hg).
    destruct (group_eq_dec g g0) as [->|Hne].
    + right. eapply collapse_group_removes; eauto.
    + destruct Hcase as [[E|Hin]|Hnone]; [congruence|now left|right].
      erewrite collapse_group_other_matching; eauto.
Qed.

Lemma foldM_collapse_columns_named gs c :
  incl gs tag_patterns ->
  (forall g, In g tag_patterns ->
             c <> fst g /\ Py.re_match_indexed (snd g) c = false) ->
  forall df df',
    foldM collapse_group gs df = Ok df' ->
    columns_named c df' = columns_named c df.
Proof.
  induction gs as [|g0 gs IH]; intros Hincl Hc df df' Hrun.
  - now inversion Hrun.
  - simpl in Hrun. destruct (collapse_group df g0) as [df1|] eqn:Hstep;
      [|discriminate]. simpl in Hrun.
    assert (Hg0 : In g0 tag_patterns) by (apply Hincl; now left).
    rewrite (IH (fun x Hx => Hincl x (or_intror Hx)) Hc df1 df' Hrun).
    destruct (Hc g0 Hg0) as [Hne Hnomatch].
    eapply collapse_group_columns_named; eauto.
Qed.

(** X10.  When [clean_tag_columns] returns, no label of the result matches
    the pattern of a group any more, and a column whose label neither
    matches a pattern nor is the name of a group is the column it was. *)
Theorem clean_tag_columns_removes_indexed :
  forall df df',
    clean_tag_columns df = Ok df' ->
    no_indexed_cols df' = true /\
    nrows df' = nrows df /\
    (forall c,
       (forall g, In g tag_patterns ->
                  c <> fst g /\ Py.re_match_indexed (snd g) c = false) ->
       columns_named c df' = columns_named c df).
Proof.
  intros df df' Hrun. split; [|split].
  - unfold no_indexed_cols. apply forallb_forall. intros g Hg.
    rewrite (foldM_collapse_removes tag_patterns (incl_refl _) df df' Hrun g Hg);
      [reflexivity|now left].
  - now apply clean_tag_columns_nrows.
  - intros c Hc.
    apply (foldM_collapse_columns_named tag_patterns c (incl_refl _) Hc df df' Hrun).
Qed.

Lemma clean_tag_columns_removes_indexed_witness :
  no_indexed_cols
    (mkDF 1 [ ("category", [VStr "Mains"]); ("price", [VStr "80"]);
              ("tag_slugs", [VStr "veg, spicy"]) ]) = true.
Proof.
  apply (clean_tag_columns_removes_indexed (DataFrame_of_records tagged_dish)).
  reflexivity.
Defined.

Lemma foldM_collapse_cell gs i :
  incl gs tag_patterns -> NoDup gs ->
  forall df df' g,
    foldM collapse_group gs df = Ok df' -> In g gs ->
    duplicated_as_rows (fst g) df = false ->
    matching_cols (snd g) df <> [] -> i < nrows df ->
    exists v, join_row (group_cells (snd g) df i) = Ok v /\
              nth_error (series (fst g) df') i = Some v.
Proof.
  induction gs as [|g0 gs IH]; intros Hincl Hnd df df' g Hrun Hin Hdup Hsome Hi;
    [contradiction|].
  simpl in Hrun. destruct (collapse_group df g0) as [df1|] eqn:Hstep;
    [|discriminate]. simpl in Hrun.
  inversion Hnd as [|? ? Hnotin Hnd']; subst.
  assert (Hg0 : In g0 tag_patterns) by (apply Hincl; now left).
  assert (Hincl' : incl gs tag_patterns) by (intros x Hx; apply Hincl; now right).
  destruct Hin as [->|Hin].
  - rewrite (foldM_collapse_keeps_series gs g Hincl' Hg0 Hnotin df1 df' Hrun).
    exact (collapse_group_cell df df1 g Hg0 Hstep i Hdup Hsome Hi).
  - assert (Hne : g <> g0) by (intro E; subst; contradiction).
    assert (Hg : In g tag_patterns) by now apply Hincl'.
    rewrite <- (collapse_group_other_cells df df1 g0 Hg0 Hstep g i Hg Hne).
    apply (IH Hincl' Hnd' df1 df' g Hrun Hin).
    + now rewrite (collapse_group_duplicated_as_rows df df1 g0 g Hg0 Hg Hne Hstep).
    + now rewrite (collapse_group_other_matching df df1 g0 Hg0 Hstep g Hg Hne).
    + now rewrite (collapse_group_nrows df df1 g0 Hg0 Hstep).
Qed.

(** X11.  When [clean_tag_columns] returns and some label of the frame
    matches the pattern of a group, the group column holds in every row
    the strings of the matched cells of that row that are not empty, in the
    order of the matched columns, joined by [", "]; this for a group whose
    name is not borne already by several columns, as many as the frame has
    rows. *)
Theorem clean_tag_columns_group_cell :
  forall df df' new_col base i,
    In (new_col, base) tag_patterns ->
    clean_tag_columns df = Ok df' ->
    duplicated_as_rows new_col df = false ->
    matching_cols base df <> [] ->
    i < nrows df ->
    nth_error (series new_col df') i =
    Some (VStr (Py.join ", " (nonempty_strings (group_cells base df i)))).
Proof.
  intros df df' new_col base i Hg Hrun Hdup Hsome Hi.
  destruct (foldM_collapse_cell tag_patterns i (incl_refl _) NoDup_tag_patterns
              df df' (new_col, base) Hrun Hg Hdup Hsome Hi) as [v [Hv Hnth]].
  simpl in Hv, Hnth. rewrite Hnth. f_equal.
  rewrite join_row_spec in Hv.
  destruct (existsb refused (group_cells base df i)); [discriminate|].
  now inversion Hv.
Qed.

Lemma clean_tag_columns_group_cell_witness :
  nth_error (series "tag_slugs"
               (mkDF 1 [ ("category", [VStr "Mains"]); ("price", [VStr "80"]);
                         ("tag_slugs", [VStr "veg, spicy"]) ])) 0 =
  Some (VStr "veg, spicy").
Proof.
  apply (clean_tag_columns_group_cell (DataFrame_of_records tagged_dish) _
           "tag_slugs" "tag_slugs_" 0).
  - simpl. auto.
  - reflexivity.
  - reflexivity.
  - discriminate.
  - simpl. lia.
Defined.

(** *** When [clean_tag_columns] raises *)

Lemma mapM_ok {A B : Type} (f : A -> result B) xs :
  (forall x, In x xs -> exists y, f x = Ok y) -> exists ys, mapM f xs = Ok ys.
Proof.
  induction xs as [|x xs IH]; intro H; [now exists []|].
  destruct (H x (or_introl eq_refl)) as [y Hy].
  destruct IH as [ys Hys]; [intros z Hz; apply H; now right|].
  exists (y :: ys). simpl. now rewrite Hy, Hys.
Qed.

Lemma mapM_raise {A B : Type} (f : A -> result B) xs e x :
  (forall z e', f z = Raise e' -> e' = e) ->
  In x xs -> f x = Raise e -> mapM f xs = Raise e.
Proof.
  intros Hkind. induction xs as [|z xs IH]; intros Hin Hx; [contradiction|].
  simpl. destruct (f z) as [y|e'] eqn:Hz.
  - simpl. destruct Hin as [->|Hin]; [congruence|].
    now rewrite (IH Hin Hx).
  - simpl. f_equal. now apply (Hkind z).
Qed.

Lemma join_row_raises x e : join_row x = Raise e -> e = TypeError.
Proof.
  rewrite join_row_spec. destruct (existsb refused x); congruence.
Qed.

Lemma in_rows df x :
  In x (map (row df) (seq 0 (nrows df))) <-> exists i, i < nrows df /\ x = row df i.
Proof.
  rewrite in_map_iff. split.
  - intros [i [<- Hi]]. apply in_seq in Hi. exists i. split; [lia|reflexivity].
  - intros [i [Hi ->]]. exists i. split; [reflexivity|]. apply in_seq. lia.
Qed.

Section CollapseGroupRaises.
Variables (df : DataFrame) (g : string * string).

Lemma collapse_group_returns :
  (forall i, i < nrows df -> existsb refused (group_cells (snd g) df i) = false) ->
  exists df1, collapse_group df g = Ok df1.
Proof.
  intro Hclean. destruct g as [n b]. unfold collapse_group. simpl in Hclean.
  destruct (matching_cols b df) as [|m ms] eqn:Hmatch; [now exists df|].
  destruct (mapM_ok join_row
              (map (row (getitem_list (m :: ms) df)) (seq 0 (nrows df))))
    as [s Hs].
  { intros x Hx.
    apply (in_rows (getitem_list (m :: ms) df)) in Hx as [i [Hi ->]].
    rewrite join_row_spec. specialize (Hclean i Hi).
    unfold group_cells in Hclean. rewrite Hmatch in Hclean. rewrite Hclean.
    eexists. reflexivity. }
  unfold apply_rows. simpl nrows. rewrite Hs. simpl. eexists. reflexivity.
Qed.

Lemma collapse_group_raises i :
  i < nrows df -> existsb refused (group_cells (snd g) df i) = true ->
  collapse_group df g = Raise TypeError.
Proof.
  intros Hi Hbad. destruct g as [n b]. unfold collapse_group. simpl in Hbad.
  unfold group_cells in Hbad.
  destruct (matching_cols b df) as [|m ms] eqn:Hmatch; [discriminate|].
  unfold apply_rows.
  rewrite (mapM_raise join_row _ TypeError (row (getitem_list (m :: ms) df) i)).
  - reflexivity.
  - intros z e'. apply join_row_raises.
  - apply in_rows. now exists i.
  - rewrite join_row_spec. now rewrite Hbad.
Qed.

Lemma collapse_group_raises_type_error e :
  collapse_group df g = Raise e -> e = TypeError.
Proof.
  destruct (existsb (fun i => existsb refused (group_cells (snd g) df i))
              (seq 0 (nrows df))) eqn:E.
  - apply existsb_exists in E as [i [Hi Hbad]]. apply in_seq in Hi.
    rewrite (collapse_group_raises i); [congruence|lia|exact Hbad].
  - destruct collapse_group_returns as [df1 ->]; [|discriminate].
    intros i Hi. 
    destruct (existsb refused (group_cells (snd g) df i)) eqn:Hb; [|reflexivity].
    assert (Hex : existsb (fun i => existsb refused (group_cells (snd g) df i))
                    (seq 0 (nrows df)) = true).
    { apply existsb_exists. exists i. split; [apply in_seq; lia|exact Hb]. }
    congruence.
Qed.
End CollapseGroupRaises.

Lemma foldM_collapse_returns gs :
  incl gs tag_patterns -> NoDup gs ->
  forall df,
    (forall g i, In g gs -> i < nrows df ->
                 existsb refused (group_cells (snd g) df i) = false) ->
    exists df', foldM collapse_group gs df = Ok df'.
Proof.
  induction gs as [|g0 gs IH]; intros Hincl Hnd df Hclean.
  - now exists df.
  - inversion Hnd as [|? ? Hnotin Hnd']; subst.
    assert (Hg0 : In g0 tag_patterns) by (apply Hincl; now left).
    assert (Hincl' : incl gs tag_patterns) by (intros x Hx; apply Hincl; now right).
    destruct (collapse_group_returns df g0) as [df1 Hstep].
    { intros i Hi. apply Hclean; [now left|exact Hi]. }
    simpl. rewrite Hstep. simpl. apply (IH Hincl' Hnd').
    intros g i Hg Hi.
    assert (Hne : g <> g0) by (intro E; subst; contradiction).
    rewrite (collapse_group_other_cells df df1 g0 Hg0 Hstep g i (Hincl' g Hg) Hne).
    apply Hclean; [now right|].
    now rewrite <- (collapse_group_nrows df df1 g0 Hg0 Hstep).
Qed.

Lemma foldM_collapse_raises gs :
  incl gs tag_patterns -> NoDup gs ->
  forall df g i,
    In g gs -> i < nrows df ->
    existsb refused (group_cells (snd g) df i) = true ->
    foldM collapse_group gs df = Raise TypeError.
Proof.
  induction gs as [|g0 gs IH]; intros Hincl Hnd df g i Hg Hi Hbad; [contradiction|].
  inversion Hnd as [|? ? Hnotin Hnd']; subst.
  assert (Hg0 : In g0 tag_patterns) by (apply Hincl; now left).
  assert (Hincl' : incl gs tag_patterns) by (intros x Hx; apply Hincl; now right).
  simpl. destruct (collapse_group df g0) as [df1|e] eqn:Hstep; simpl.
  - destruct Hg as [->|Hg].
    + rewrite (collapse_group_raises df g i Hi Hbad) in Hstep. discriminate.
    + assert (Hne : g <> g0) by (intro E; subst; contradiction).
      apply (IH Hincl' Hnd' df1 g i Hg).
      * now rewrite (collapse_group_nrows df df1 g0 Hg0 Hstep).
      * now rewrite (collapse_group_other_cells df df1 g0 Hg0 Hstep g i
                       (Hincl' g Hg) Hne).
  - f_equal. now apply (collapse_group_raises_type_error df g0).
Qed.

(** X12.  [clean_tag_columns] returns a frame exactly when no cell of a
    column matched by a group is a number other than 0 or [True]; when one
    is, it raises a [TypeError].  In particular it returns on every frame
    whose matched cells are strings or missing. *)
Theorem clean_tag_columns_raises_iff :
  forall df,
    (refused_group_cell df = false -> exists df', clean_tag_columns df = Ok df') /\
    (refused_group_cell df = true -> clean_tag_columns df = Raise TypeError).
Proof.
  intro df. unfold refused_group_cell. split; intro H.
  - apply (foldM_collapse_returns tag_patterns (incl_refl _) NoDup_tag_patterns).
    intros g i Hg Hi.
    destruct (existsb refused (group_cells (snd g) df i)) eqn:Hb; [|reflexivity].
    assert (Hex : existsb (fun g => existsb (fun i => existsb refused
                      (group_cells (snd g) df i)) (seq 0 (nrows df)))
                    tag_patterns = true).
    { apply existsb_exists. exists g. split; [exact Hg|].
      apply existsb_exists. exists i. split; [apply in_seq; lia|exact Hb]. }
    congruence.
  - apply existsb_exists in H as [g [Hg H]].
    apply existsb_exists in H as [i [Hi Hbad]]. apply in_seq in Hi.
    apply (foldM_collapse_raises tag_patterns (incl_refl _) NoDup_tag_patterns
             df g i Hg); [lia|exact Hbad].
Qed.

Lemma clean_tag_columns_raises_iff_witness :
  clean_tag_columns (DataFrame_of_records numeric_in_group) = Raise TypeError.
Proof.
  apply (proj2 (clean_tag_columns_raises_iff (DataFrame_of_records numeric_in_group))).
  reflexivity.
Defined.

(* ================================================================== *)
(** * Properties of [extract_menu_data] *)

Lemma traverse_in {A B : Type} (f : A -> outcome B) xs ys y :
  traverse f xs = Done ys -> In y ys -> exists x, In x xs /\ f x = Done y.
Proof.
  revert ys; induction xs as [|x xs IH]; intros ys H Hy; simpl in H.
  - inversion H; subst. contradiction.
  - destruct (f x) as [y0|] eqn:Hx; [|discriminate]. simpl in H.
    destruct (traverse f xs) as [ys0|]; [|discriminate]. simpl in H.
    inversion H; subst. destruct Hy as [->|Hy].
    + exists x. split; [now left|exact Hx].
    + destruct (IH ys0 eq_refl Hy) as [x' [Hin Hx']].
      exists x'. split; [now right|exact Hx'].
Qed.

Lemma traverse_fail {A B : Type} (f : A -> outcome B) l1 x l2 e :
  (forall z, In z l1 -> exists y, f z = Done y) -> f x = Fail e ->
  traverse f (l1 ++ x :: l2) = Fail e.
Proof.
  induction l1 as [|z l1 IH]; intros Hok Hx; simpl.
  - now rewrite Hx.
  - destruct (Hok z (or_introl eq_refl)) as [y ->]. simpl.
    rewrite IH; [reflexivity| |exact Hx].
    intros w Hw. apply Hok. now right.
Qed.

Lemma traverse_forward {A B : Type} (f : A -> outcome B) xs ys x :
  traverse f xs = Done ys -> In x xs -> exists y, f x = Done y /\ In y ys.
Proof.
  revert ys; induction xs as [|x0 xs IH]; intros ys H Hx; [contradiction|].
  simpl in H. destruct (f x0) as [y0|] eqn:Hx0; [|discriminate]. simpl in H.
  destruct (traverse f xs) as [ys0|]; [|discriminate]. simpl in H.
  inversion H; subst. destruct Hx as [->|Hx].
  - exists y0. split; [exact Hx0|now left].
  - destruct (IH ys0 eq_refl Hx) as [y [Hy Hin]].
    exists y. split; [exact Hy|now right].
Qed.

(** The rows of a loop in a loop: the rows of the inner loop, for each
    element of the outer one. *)
Lemma traverse_concat {A B : Type} (f : A -> outcome (list B)) xs yss y :
  traverse f xs = Done yss ->
  (In y (List.concat yss) <-> exists x ys, In x xs /\ f x = Done ys /\ In y ys).
Proof.
  intro H. rewrite in_concat. split.
  - intros [ys [Hys Hy]]. destruct (traverse_in f xs yss ys H Hys) as [x [Hx Hf]].
    now exists x, ys.
  - intros [x [ys [Hx [Hf Hy]]]].
    destruct (traverse_forward f xs yss x H Hx) as [ys' [Hf' Hin]].
    exists ys. split; [|exact Hy]. congruence.
Qed.

Lemma item_row_iff category_name item_data r :
  item_row category_name item_data = Done r <->
  exists d, getitem "item" item_data = Done (JDict d) /\
            r = dict_set ("category", category_name) (lift_record (flatten_dict d "")).
Proof.
  unfold item_row. split.
  - destruct (getitem "item" item_data) as [item|]; [|discriminate].
    simpl. destruct item as [x|l|d]; try discriminate. simpl.
    intros [= <-]. now exists d.
  - intros [d [-> ->]]. reflexivity.
Qed.

Lemma category_rows_iff category_name category rows r :
  category_rows category_name category = Done rows ->
  (In r rows <->
   exists inner items item_datas item_data d,
     getitem "category" category = Done inner /\
     getitem "items" inner = Done items /\ iterate items = Done item_datas /\
     In item_data item_datas /\
     getitem "item" item_data = Done (JDict d) /\
     r = dict_set ("category", category_name) (lift_record (flatten_dict d ""))).
Proof.
  unfold category_rows.
  destruct (getitem "category" category) as [inner|]; [|discriminate]. simpl.
  destruct (getitem "items" inner) as [items|] eqn:Hitems; [|discriminate]. simpl.
  destruct (iterate items) as [item_datas|] eqn:Hiter; [|discriminate]. simpl.
  intro Ht. split.
  - intro Hr. destruct (traverse_in _ _ _ _ Ht Hr) as [item_data [Hin Hrow]].
    apply item_row_iff in Hrow as [d [Hd ->]].
    now exists inner, items, item_datas, item_data, d.
  - intros [inner' [items' [item_datas' [item_data [d [E1 [E2 [E3 [Hin [Hd ->]]]]]]]]]].
    inversion E1; subst inner'. rewrite Hitems in E2. inversion E2; subst items'.
    rewrite Hiter in E3. inversion E3; subst item_datas'.
    destruct (traverse_forward _ _ _ _ Ht Hin) as [r [Hrow Hr]].
    apply item_row_iff in Hrow as [d' [Hd' ->]].
    rewrite Hd in Hd'. inversion Hd'; subst d'. exact Hr.
Qed.

Lemma section_rows_iff menu_section rows r :
  section_rows menu_section = Done rows ->
  (In r rows <->
   exists item_data name d,
     item_of_section menu_section item_data /\
     name_of_section menu_section = Done name /\
     getitem "item" item_data = Done (JDict d) /\
     r = dict_set ("category", name) (lift_record (flatten_dict d ""))).
Proof.
  unfold section_rows, name_of_section, item_of_section.
  destruct (getitem "menu" menu_section) as [menu|]; [|discriminate].
  cbn [and_then].
  destruct (getitem "name" menu) as [name|]; [|discriminate]. cbn [and_then].
  destruct (getitem "categories" menu) as [cs|] eqn:Hcs; [|discriminate].
  cbn [and_then].
  destruct (iterate cs) as [categories|] eqn:Hiter; [|discriminate].
  cbn [and_then].
  destruct (traverse (category_rows name) categories) as [rowss|] eqn:Ht;
    [|discriminate]. cbn [and_then].
  intros [= <-]. rewrite (traverse_concat _ _ _ r Ht). split.
  - intros [category [rs [Hcat [Hrows Hr]]]].
    apply (category_rows_iff _ _ _ r Hrows) in Hr
      as [inner [items [item_datas [item_data [d [E1 [E2 [E3 [Hin [Hd ->]]]]]]]]]].
    exists item_data, name, d. split; [|auto].
    now exists menu, cs, categories, category, inner, items, item_datas.
  - intros [item_data [name' [d [Hitem [Hname [Hd ->]]]]]].
    inversion Hname; subst name'.
    destruct Hitem as [menu' [cs' [categories' [category [inner [items [item_datas
      [E0 [E1 [E2 [Hcat [E3 [E4 [E5 Hin]]]]]]]]]]]]]].
    inversion E0; subst menu'. rewrite Hcs in E1. inversion E1; subst cs'.
    rewrite Hiter in E2. inversion E2; subst categories'.
    destruct (traverse_forward _ _ _ _ Ht Hcat) as [rs [Hrows Hrs]].
    exists category, rs. split; [exact Hcat|]. split; [exact Hrows|].
    apply (category_rows_iff _ _ _ _ Hrows).
    now exists inner, items, item_datas, item_data, d.
Qed.

(** X13.  The rows that [extract_menu_data] collects are exactly the items
    that its loops meet: a row is collected if and only if it is, for an
    item met in a section of the menu, the flattened [item_data['item']]
    with the key [category] set to the name of that section; a [category]
    field of the item itself is overwritten. *)
Theorem extract_items_category :
  forall menu_data sections rows,
    iterate menu_data = Done sections ->
    extract_items menu_data = Done rows ->
    forall r,
      In r rows <->
      exists menu_section item_data name d,
        In menu_section sections /\
        item_of_section menu_section item_data /\
        name_of_section menu_section = Done name /\
        getitem "item" item_data = Done (JDict d) /\
        r = dict_set ("category", name) (lift_record (flatten_dict d "")) /\
        dict_get "category" r = Some name.
Proof.
  intros menu_data sections rows Hsections H r. unfold extract_items in H.
  rewrite Hsections in H. cbn [and_then] in H.
  destruct (traverse section_rows sections) as [rowss|] eqn:Ht; [|discriminate].
  cbn [and_then] in H. inversion H; subst rows; clear H.
  rewrite (traverse_concat _ _ _ r Ht). split.
  - intros [menu_section [rs [Hsec [Hrows Hr]]]].
    apply (section_rows_iff _ _ r Hrows) in Hr
      as [item_data [name [d [Hitem [Hname [Hd ->]]]]]].
    exists menu_section, item_data, name, d.
    repeat (split; [assumption || reflexivity|]).
    rewrite dict_get_dict_set. reflexivity.
  - intros [menu_section [item_data [name [d [Hsec [Hitem [Hname [Hd [-> _]]]]]]]]].
    destruct (traverse_forward _ _ _ _ Ht Hsec) as [rs [Hrows Hrs]].
    exists menu_section, rs. split; [exact Hsec|]. split; [exact Hrows|].
    apply (section_rows_iff _ _ _ Hrows).
    now exists item_data, name, d.
Qed.

Lemma extract_items_category_witness :
  exists menu_section item_data name d,
    In menu_section [mains_section] /\
    item_of_section menu_section item_data /\
    name_of_section menu_section = Done name /\
    getitem "item" item_data = Done (JDict d) /\
    [("name", JScalar (VStr "Rice")); ("category", JScalar (VStr "Mains"))] =
      dict_set ("category", name) (lift_record (flatten_dict d "")) /\
    dict_get "category"
      [("name", JScalar (VStr "Rice")); ("category", JScalar (VStr "Mains"))] =
      Some name.
Proof.
  apply (proj1 (extract_items_category one_item_menu [mains_section]
                  [[("name", JScalar (VStr "Rice"));
                    ("category", JScalar (VStr "Mains"))]]
                  eq_refl eq_refl _)).
  now left.
Defined.

(** X14.  [extract_menu_data] gives all the items or none: when one menu
    section raises, the sections before it having gone through, the
    function raises that exception and no item is returned.  A section
    that is a mapping without the key [menu] raises [KeyError('menu')]. *)
Theorem extract_items_all_or_nothing :
  forall before menu_section after,
    (forall s, In s before -> exists rows, section_rows s = Done rows) ->
    (forall e, section_rows menu_section = Fail e ->
               extract_items (JList (before ++ menu_section :: after)) = Fail e) /\
    (forall d, menu_section = JDict d -> dict_get "menu" d = None ->
               extract_items (JList (before ++ menu_section :: after)) =
               Fail (PyKeyError "menu")).
Proof.
  intros before menu_section after Hok.
  assert (Hgen : forall e, section_rows menu_section = Fail e ->
            extract_items (JList (before ++ menu_section :: after)) = Fail e).
  { intros e He. unfold extract_items. simpl.
    now rewrite (traverse_fail section_rows before menu_section after e Hok He). }
  split; [exact Hgen|].
  intros d -> Hnone. apply Hgen. unfold section_rows. simpl. now rewrite Hnone.
Qed.

Lemma extract_items_all_or_nothing_witness :
  extract_items one_item_menu =
    Done [[("name", JScalar (VStr "Rice")); ("category", JScalar (VStr "Mains"))]] /\
  extract_items
    (JList ([JDict [ ("menu", JDict [
               ("name", JScalar (VStr "Mains")); ("categories", JList []) ]) ]]
            ++ JDict [("title", JScalar (VStr "Drinks"))] :: [])) =
  Fail (PyKeyError "menu").
Proof.
  split; [reflexivity|].
  apply (extract_items_all_or_nothing
           [JDict [ ("menu", JDict [
               ("name", JScalar (VStr "Mains")); ("categories", JList []) ]) ]]
           (JDict [("title", JScalar (VStr "Drinks"))]) [])
    with (d := [("title", JScalar (VStr "Drinks"))]).
  - intros s [<-|[]]. eexists. reflexivity.
  - reflexivity.
  - reflexivity.
Defined.

(* ================================================================== *)
(** * Properties of scrape_area_restaurants.py *)

(** ** [parse_cookies_from_string] *)

Lemma contains_cons sub c s :
  PyStr.contains sub (String c s) = String.prefix sub (String c s) || PyStr.contains sub s.
Proof. reflexivity. Qed.

Lemma contains_false_cons sub c s :
  PyStr.contains sub (String c s) = false ->
  String.prefix sub (String c s) = false /\ PyStr.contains sub s = false.
Proof. rewrite contains_cons. apply orb_false_iff. Qed.

Lemma prefix_cons a s1 b s2 :
  String.prefix (String a s1) (String b s2) =
  if ascii_dec a b then String.prefix s1 s2 else false.
Proof. reflexivity. Qed.

Lemma prefix_empty s : String.prefix "" s = true.
Proof. now destruct s. Qed.

Lemma prefix_separator_piece c p t :
  String.prefix "; " (String c p) = false ->
  String.prefix "; " (String c (p +:+ "; " +:+ t)) = false.
Proof.
  rewrite !prefix_cons. destruct (ascii_dec ";" c); [|reflexivity].
  destruct p as [|c2 p].
  - intros _. change ("" +:+ "; " +:+ t) with (String ";" (String " " t)).
    rewrite prefix_cons. destruct (ascii_dec " " ";"); [discriminate|reflexivity].
  - change (String c2 p +:+ "; " +:+ t) with (String c2 (p +:+ "; " +:+ t)).
    rewrite !prefix_cons. destruct (ascii_dec " " c2); [|reflexivity].
    now rewrite !prefix_empty.
Qed.

Lemma split_from_separator t :
  PyStr.split_from "; " 0 ("; " +:+ t) = "" :: PyStr.split_from "; " 0 t.
Proof.
  change ("; " +:+ t) with (String ";" (String " " t)).
  cbn [PyStr.split_from]. rewrite !prefix_cons, prefix_empty.
  destruct (ascii_dec ";" ";"); [|contradiction].
  destruct (ascii_dec " " " "); [|contradiction]. reflexivity.
Qed.

Lemma split_from_cons c s :
  String.prefix "; " (String c s) = false ->
  PyStr.split_from "; " 0 (String c s) =
  match PyStr.split_from "; " 0 s with
  | piece :: pieces => String c piece :: pieces
  | [] => [String c ""]
  end.
Proof. intro H. cbn [PyStr.split_from]. now rewrite H. Qed.

Lemma split_piece p t :
  PyStr.contains "; " p = false ->
  PyStr.split_from "; " 0 (p +:+ "; " +:+ t) = p :: PyStr.split_from "; " 0 t.
Proof.
  induction p as [|c p IH]; intro H.
  - apply split_from_separator.
  - apply contains_false_cons in H as [Hpre Hrest].
    change (String c p +:+ "; " +:+ t) with (String c (p +:+ "; " +:+ t)).
    rewrite split_from_cons by now apply prefix_separator_piece.
    now rewrite (IH Hrest).
Qed.

Lemma split_last p :
  PyStr.contains "; " p = false -> PyStr.split_from "; " 0 p = [p].
Proof.
  induction p as [|c p IH]; intro H; [reflexivity|].
  apply contains_false_cons in H as [Hpre Hrest].
  rewrite split_from_cons by exact Hpre. now rewrite (IH Hrest).
Qed.

(** Splitting what was joined gives the pieces back. *)
Lemma split_join pieces :
  pieces <> [] ->
  Forall (fun p => PyStr.contains "; " p = false) pieces ->
  PyStr.split "; " (String.concat "; " pieces) = pieces.
Proof.
  unfold PyStr.split.
  induction pieces as [|p pieces IH]; intros Hne Hall; [contradiction|].
  inversion Hall as [|? ? Hp Hrest]; subst.
  destruct pieces as [|q pieces].
  - simpl. now apply split_last.
  - change (String.concat "; " (p :: q :: pieces))
      with (p +:+ "; " +:+ String.concat "; " (q :: pieces)).
    rewrite split_piece by exact Hp. f_equal.
    apply IH; [discriminate|exact Hrest].
Qed.

Lemma contains_prefix sub s : String.prefix sub s = true -> PyStr.contains sub s = true.
Proof. intro H. destruct s; cbn [PyStr.contains]; now rewrite H. Qed.

Lemma contains_middle sub a b : PyStr.contains sub (a +:+ sub +:+ b) = true.
Proof.
  induction a as [|c a IH].
  - change ("" +:+ sub +:+ b) with (sub +:+ b).
    apply contains_prefix, prefix_append.
  - change (String c a +:+ sub +:+ b) with (String c (a +:+ sub +:+ b)).
    rewrite contains_cons, IH. apply orb_true_r.
Qed.

Lemma prefix_equals_sign c s :
  String.prefix "=" (String c s) = if ascii_dec "=" c then true else false.
Proof.
  rewrite prefix_cons. destruct (ascii_dec "=" c); [apply prefix_empty|reflexivity].
Qed.

Lemma split_once_name name value :
  PyStr.contains "=" name = false ->
  PyStr.split_once "=" (name +:+ "=" +:+ value) = Some (name, value).
Proof.
  induction name as [|c name IH]; intro H.
  - change ("" +:+ "=" +:+ value) with (String "=" value).
    cbn [PyStr.split_once]. rewrite prefix_equals_sign.
    destruct (ascii_dec "=" "="); [|contradiction]. reflexivity.
  - apply contains_false_cons in H as [Hpre Hrest].
    change (String c name +:+ "=" +:+ value) with (String c (name +:+ "=" +:+ value)).
    cbn [PyStr.split_once].
    rewrite prefix_equals_sign in Hpre |- *.
    destruct (ascii_dec "=" c); [discriminate|].
    now rewrite (IH Hrest).
Qed.

Lemma parse_cookie_plain cookies cookie :
  plain_cookie cookie ->
  parse_cookie cookies (cookie_text cookie) = dict_set cookie cookies.
Proof.
  destruct cookie as [name value]. intros [Hname [_ Hvalue]]. simpl in *.
  unfold parse_cookie, cookie_text. simpl fst; simpl snd.
  rewrite (contains_middle "=" name value), (split_once_name name value Hname).
  now rewrite Hvalue.
Qed.

Lemma fold_parse_cookie_plain cookies_in cookies :
  Forall plain_cookie cookies_in ->
  fold_left parse_cookie (map cookie_text cookies_in) cookies =
  dict_update cookies_in cookies.
Proof.
  revert cookies; induction cookies_in as [|c cs IH]; intros cookies Hall;
    [reflexivity|].
  inversion Hall as [|? ? Hc Hcs]; subst. simpl.
  rewrite (parse_cookie_plain cookies c Hc). now apply IH.
Qed.

(** X15.  Round trip of the cookie header: for cookies whose names hold no
    ['='], whose texts hold no ["; "] and whose values have no quote at
    their ends, parsing the header that joins the [name=value] texts with
    ["; "] gives the dict of these cookies, a later cookie replacing an
    earlier one of the same name. *)
Theorem parse_cookies_round_trip :
  forall cookies,
    Forall plain_cookie cookies ->
    parse_cookies_from_string (String.concat "; " (map cookie_text cookies)) =
    py_dict cookies.
Proof.
  intros cookies Hall. unfold parse_cookies_from_string.
  destruct cookies as [|c cs]; [reflexivity|].
  rewrite split_join.
  - now apply fold_parse_cookie_plain.
  - discriminate.
  - apply Forall_forall. intros p Hp.
    apply in_map_iff in Hp as [c' [<- Hc']].
    rewrite Forall_forall in Hall. now destruct (Hall c' Hc') as [_ [H _]].
Qed.

Lemma parse_cookies_round_trip_witness :
  parse_cookies_from_string "fbcity=31; zl=en; fbcity=7" =
  [("fbcity", "7"); ("zl", "en")].
Proof.
  apply (parse_cookies_round_trip [("fbcity", "31"); ("zl", "en"); ("fbcity", "7")]).
  repeat constructor.
Defined.

Lemma in_dict_set {V : Type} (e kv : string * V) (d : dict V) :
  In e (dict_set kv d) -> e = kv \/ In e d.
Proof.
  induction d as [|[k' v'] d IH]; simpl.
  - intros [<-|[]]. now left.
  - destruct (String.eqb_spec (fst kv) k') as [Heq|Hne]; simpl.
    + intros [<-|Hin]; [left|right; now right].
      destruct kv; simpl in *; now subst.
    + intros [<-|Hin]; [right; now left|].
      destruct (IH Hin); [now left|right; now right].
Qed.

Lemma split_once_before s before after :
  PyStr.split_once "=" s = Some (before, after) ->
  PyStr.contains "=" before = false.
Proof.
  revert before. induction s as [|c s IH]; intros before H.
  - discriminate.
  - cbn [PyStr.split_once] in H. rewrite prefix_equals_sign in H.
    destruct (ascii_dec "=" c) as [E|N].
    + inversion H; subst. reflexivity.
    + destruct (PyStr.split_once "=" s) as [[b a]|]; [|discriminate].
      inversion H; subst. rewrite contains_cons, prefix_equals_sign.
      destruct (ascii_dec "=" c); [contradiction|]. simpl.
      now apply IH.
Qed.

Lemma drop_while_fixed {A : Type} (p : A -> bool) l :
  Py.drop_while p (Py.drop_while p l) = Py.drop_while p l.
Proof.
  induction l as [|x l IH]; [reflexivity|]. simpl.
  destruct (p x) eqn:E; [exact IH|]. simpl. now rewrite E.
Qed.

Lemma drop_while_suffix {A : Type} (p : A -> bool) l :
  exists z, l = z ++ Py.drop_while p l.
Proof.
  induction l as [|x l [z IH]]; [now exists []|]. simpl.
  destruct (p x); [|now exists []].
  exists (x :: z). simpl. now f_equal.
Qed.

Lemma drop_while_head {A : Type} (p : A -> bool) l x m :
  Py.drop_while p l = x :: m -> p x = false.
Proof.
  induction l as [|y l IH]; [discriminate|]. simpl.
  destruct (p y) eqn:E; [exact IH|]. intros [= <- _]. exact E.
Qed.

(** Stripping twice strips no more. *)
Lemma strip_strip c s : PyStr.strip c (PyStr.strip c s) = PyStr.strip c s.
Proof.
  unfold PyStr.strip.
  set (p := fun x => Ascii.eqb x c).
  set (m := Py.drop_while p (list_ascii_of_string s)).
  set (w := Py.drop_while p (rev m)).
  rewrite list_ascii_of_string_of_list_ascii.
  assert (Hleft : Py.drop_while p (rev w) = rev w).
  { destruct (rev w) as [|x y] eqn:E; [reflexivity|].
    simpl. destruct (p x) eqn:Hx; [exfalso|reflexivity].
    destruct (drop_while_suffix p (rev m)) as [z Hz]. fold w in Hz.
    apply (f_equal (@rev ascii)) in Hz.
    rewrite rev_involutive, rev_app_distr, E in Hz. simpl in Hz.
    subst m. apply drop_while_head in Hz. congruence. }
  rewrite Hleft, rev_involutive. unfold w. now rewrite drop_while_fixed.
Qed.

Lemma parse_cookie_entries cookies cookie name value :
  In (name, value) (parse_cookie cookies cookie) ->
  In (name, value) cookies \/
  (PyStr.contains "=" name = false /\ PyStr.strip PyStr.quote value = value).
Proof.
  unfold parse_cookie.
  destruct (PyStr.contains "=" cookie); [|now left].
  destruct (PyStr.split_once "=" cookie) as [[n v]|] eqn:E; [|now left].
  intro Hin. apply in_dict_set in Hin as [Heq|Hin]; [right|now left].
  inversion Heq; subst. split.
  - now apply (split_once_before cookie n v).
  - apply strip_strip.
Qed.

(** X16.  In the dict that [parse_cookies_from_string] returns, whatever the
    header, no name holds an ['='] and no value starts or ends with a
    quote: stripping the quotes of a value again changes nothing. *)
Theorem parse_cookies_entries :
  forall cookie_string name value,
    In (name, value) (parse_cookies_from_string cookie_string) ->
    PyStr.contains "=" name = false /\
    PyStr.strip PyStr.quote value = value.
Proof.
  intros cookie_string name value. unfold parse_cookies_from_string.
  assert (Hgen : forall pieces cookies,
    (forall n v, In (n, v) cookies ->
       PyStr.contains "=" n = false /\ PyStr.strip PyStr.quote v = v) ->
    In (name, value) (fold_left parse_cookie pieces cookies) ->
    PyStr.contains "=" name = false /\ PyStr.strip PyStr.quote value = value).
  { induction pieces as [|p pieces IH]; intros cookies Hinv Hin; simpl in Hin.
    - now apply Hinv.
    - apply (IH (parse_cookie cookies p)); [|exact Hin].
      intros n v Hnv. apply parse_cookie_entries in Hnv as [Hold|Hnew];
        [now apply Hinv|exact Hnew]. }
  apply Hgen. intros n v [].
Qed.

Lemma parse_cookies_entries_witness :
  PyStr.contains "=" "b" = false /\ PyStr.strip PyStr.quote "x=y" = "x=y".
Proof.
  apply (parse_cookies_entries "a=1; b=x=y; junk" "b" "x=y").
  vm_compute. auto.
Defined.

(** ** [scrape_restaurants] *)

Section ScrapeFacts.
Variable format_value : json -> string.

Lemma getitem_dict key d x :
  getitem key (JDict d) = Done x <-> dict_get key d = Some x.
Proof.
  unfold getitem. destruct (dict_get key d); split; intro H; inversion H; reflexivity.
Qed.

Lemma restaurant_record_inv d r :
  restaurant_record format_value (JDict d) = Done r ->
  dict_get "name" d = Some (r_name r) /\
  (exists locality url,
     dict_get "locality" d = Some locality /\
     getitem "localityUrl" locality = Done url /\
     r_url r = "https://www.zomato.com" +:+ format_value url /\
     getitem "address" locality = Done (r_address r)) /\
  match dict_get "rating" d with
  | Some rating => getitem "aggregate_rating" rating = Done (r_rating r)
  | None => r_rating r = not_available
  end /\
  match dict_get "cuisine" d with
  | Some cuisine =>
      exists cs, iterate cuisine = Done cs /\
                 traverse (getitem "name") cs = Done (r_cuisine r)
  | None => r_cuisine r = []
  end /\
  match dict_get "cft" d with
  | Some cft => get_or "text" not_available cft = Done (r_cost_for_two r)
  | None => r_cost_for_two r = not_available
  end.
Proof.
  intro H. unfold restaurant_record, has_key in H. cbn [getitem get_or] in H.
  destruct (dict_get "name" d) as [name|] eqn:Hname; [|discriminate].
  cbn [and_then] in H.
  destruct (dict_get "locality" d) as [locality|] eqn:Hloc; [|discriminate].
  cbn [and_then] in H.
  destruct (getitem "localityUrl" locality) as [url|] eqn:Hurl; [|discriminate].
  cbn [and_then] in H.
  destruct (dict_get "rating" d) as [rating|] eqn:Hrating; cbn [and_then] in H.
  all: try (destruct (getitem "aggregate_rating" rating) as [rt|] eqn:Hrt;
            [|discriminate]; cbn [and_then] in H).
  all: destruct (dict_get "cuisine" d) as [cuisine|] eqn:Hcuisine;
    cbn [and_then] in H.
  all: try (destruct (iterate cuisine) as [cs|] eqn:Hcs; [|discriminate];
            cbn [and_then] in H;
            destruct (traverse (getitem "name") cs) as [names|] eqn:Hnames;
            [|discriminate]; cbn [and_then] in H).
  all: destruct (dict_get "cft" d) as [cft|] eqn:Hcft;
    cbn [and_then get_or dict_get] in H.
  all: try (destruct (get_or "text" not_available cft) as [cost|] eqn:Hcost;
            [|discriminate]; cbn [and_then] in H).
  all: destruct (getitem "address" locality) as [address|] eqn:Haddr;
    [|discriminate]; cbn [and_then] in H.
  all: inversion H; subst r; clear H;
    cbn [r_name r_url r_rating r_cuisine r_cost_for_two r_address].
  all: split; [reflexivity|];
    split; [exists locality, url; repeat split; assumption|].
  all: repeat split; eauto.
Qed.

(** X18.  A restaurant whose [info] has a name and no [locality] gets no
    record: building the url raises [KeyError('locality')] before the
    address is looked at, so the ['N/A'] written for a missing locality
    is never the address of a record. *)
Theorem restaurant_record_needs_locality :
  (forall d name,
     dict_get "name" d = Some name -> dict_get "locality" d = None ->
     restaurant_record format_value (JDict d) = Fail (PyKeyError "locality")) /\
  (forall info r,
     restaurant_record format_value info = Done r ->
     exists locality, getitem "locality" info = Done locality /\
                      getitem "address" locality = Done (r_address r)).
Proof.
  split.
  - intros d name Hname Hloc. unfold restaurant_record, getitem.
    now rewrite Hname, Hloc.
  - intros info r H. destruct info as [x|l|d]; try discriminate.
    destruct (restaurant_record_inv d r H)
      as [_ [[locality [url [Hloc [_ [_ Haddr]]]]] _]].
    exists locality. split; [now apply getitem_dict|exact Haddr].
Qed.
End ScrapeFacts.

Section ScrapeLoop.
Variable format_value : json -> string.


Lemma collect_extends rs :
  forall all_restaurants,
    exists more, fst (collect format_value rs all_restaurants) = all_restaurants ++ more.
Proof.
  induction rs as [|r rs IH]; intro all_restaurants; simpl.
  - exists []. now rewrite app_nil_r.
  - destruct (visit format_value r) as [[record|]|e].
    + destruct (IH (all_restaurants ++ [record])) as [more Hmore].
      exists (record :: more). rewrite Hmore. now rewrite <- app_assoc.
    + apply IH.
    + exists []. now rewrite app_nil_r.
Qed.

Lemma collect_app rs1 rs2 :
  forall all_restaurants,
    collect format_value (rs1 ++ rs2) all_restaurants =
    if snd (collect format_value rs1 all_restaurants)
    then collect format_value rs2 (fst (collect format_value rs1 all_restaurants))
    else collect format_value rs1 all_restaurants.
Proof.
  induction rs1 as [|r rs1 IH]; intro all_restaurants; simpl; [reflexivity|].
  destruct (visit format_value r) as [[record|]|e]; [apply IH|apply IH|reflexivity].
Qed.

(** X19.  When an element of the search results raises, the loop over them
    stops there, and the records appended before, from this page and the
    earlier ones, stay in [all_restaurants]. *)
Theorem collect_failure_keeps :
  forall before bad after all_restaurants appended e,
    collect format_value before all_restaurants = (appended, true) ->
    visit format_value bad = Fail e ->
    collect format_value (before ++ bad :: after) all_restaurants = (appended, false) /\
    exists more, appended = all_restaurants ++ more.
Proof.
  intros before bad after all_restaurants appended e Hbefore Hbad. split.
  - rewrite collect_app, Hbefore. simpl. now rewrite Hbad.
  - destruct (collect_extends before all_restaurants) as [more Hmore].
    rewrite Hbefore in Hmore. now exists more.
Qed.

(** X20.  An element of the search results whose [type] is not
    ['restaurant'] is passed over: the loop does with it what it does
    without it. *)
Theorem collect_skips_other_types :
  forall before other after all_restaurants type,
    getitem "type" other = Done type ->
    is_restaurant_type type = false ->
    collect format_value (before ++ other :: after) all_restaurants =
    collect format_value (before ++ after) all_restaurants.
Proof.
  intros before other after all_restaurants type Htype Hother.
  rewrite !collect_app.
  destruct (snd (collect format_value before all_restaurants)); [|reflexivity].
  simpl. unfold visit. rewrite Htype. simpl. now rewrite Hother.
Qed.

Lemma scrape_page_extends data all_restaurants :
  exists more,
    fst (scrape_page format_value data all_restaurants) = all_restaurants ++ more.
Proof.
  unfold scrape_page.
  destruct (search_results data) as [restaurants|];
    [|exists []; now rewrite app_nil_r].
  destruct (iterate restaurants) as [rs|]; [apply collect_extends|].
  exists []. now rewrite app_nil_r.
Qed.

Lemma scrape_from_one_more fetch n :
  forall page all_restaurants,
    exists more,
      scrape_from format_value fetch page (S n) all_restaurants =
      scrape_from format_value fetch page n all_restaurants ++ more.
Proof.
  induction n as [|n IH]; intros page all_restaurants.
  - simpl. destruct (fetch page) as [data|]; [|exists []; now rewrite app_nil_r].
    destruct (scrape_page_extends data all_restaurants) as [more Hmore].
    destruct (scrape_page format_value data all_restaurants) as [all' go_on].
    simpl in Hmore. subst all'. exists more. now destruct go_on.
  - cbn [scrape_from].
    destruct (fetch page) as [data|]; [|exists []; now rewrite app_nil_r].
    destruct (scrape_page format_value data all_restaurants) as [all' go_on].
    destruct go_on; [apply IH|exists []; now rewrite app_nil_r].
Qed.

Lemma scrape_from_dead fetch a k :
  forall page all_restaurants,
    dead_page fetch (page + a) ->
    scrape_from format_value fetch page (a + S k) all_restaurants =
    scrape_from format_value fetch page a all_restaurants.
Proof.
  induction a as [|a IH]; intros page all_restaurants Hdead.
  - rewrite Nat.add_0_r in Hdead. unfold dead_page in Hdead. simpl.
    destruct (fetch page) as [data|]; [|reflexivity].
    unfold scrape_page. now rewrite Hdead.
  - cbn [Nat.add scrape_from].
    destruct (fetch page) as [data|]; [|reflexivity].
    destruct (scrape_page format_value data all_restaurants) as [all' go_on].
    destruct go_on; [|reflexivity].
    apply IH. now replace (S page + a) with (page + S a) by lia.
Qed.

Lemma scrape_from_same_pages fetch fetch' n :
  forall page all_restaurants,
    (forall p, page <= p < page + n -> fetch p = fetch' p) ->
    scrape_from format_value fetch page n all_restaurants =
    scrape_from format_value fetch' page n all_restaurants.
Proof.
  induction n as [|n IH]; intros page all_restaurants Hsame; [reflexivity|].
  cbn [scrape_from]. rewrite <- (Hsame page) by lia.
  destruct (fetch page) as [data|]; [|reflexivity].
  destruct (scrape_page format_value data all_restaurants) as [all' go_on].
  destruct go_on; [|reflexivity].
  apply IH. intros p Hp. apply Hsame. lia.
Qed.

(** X21.  Asking [scrape_restaurants] for one page more never loses a
    restaurant: the result for [max_pages + 1] starts with the result for
    [max_pages].  With [max_pages] at most 0 nothing is requested and the
    result is empty. *)
Theorem scrape_restaurants_more_pages :
  forall fetch max_pages,
    (exists more,
       scrape_restaurants format_value fetch (max_pages + 1) =
       scrape_restaurants format_value fetch max_pages ++ more) /\
    ((max_pages <= 0)%Z -> scrape_restaurants format_value fetch max_pages = []).
Proof.
  intros fetch max_pages. unfold scrape_restaurants. split.
  - destruct (Z_lt_le_dec max_pages 0) as [Hneg|Hpos].
    + exists [].
      replace (Z.to_nat (max_pages + 1)) with 0 by lia.
      replace (Z.to_nat max_pages) with 0 by lia. reflexivity.
    + replace (Z.to_nat (max_pages + 1)) with (S (Z.to_nat max_pages)) by lia.
      apply scrape_from_one_more.
  - intro H. replace (Z.to_nat max_pages) with 0 by lia. reflexivity.
Qed.

(** X22.  Once the request of a page fails or its response has no search
    results, no later page counts: the result is the one for the pages
    before it.  And the result depends on the responses to the pages 1 to
    [max_pages] only. *)
Theorem scrape_restaurants_stops :
  forall fetch max_pages,
    (forall page,
       (1 <= page <= max_pages)%Z -> dead_page fetch (Z.to_nat page) ->
       scrape_restaurants format_value fetch max_pages =
       scrape_restaurants format_value fetch (page - 1)) /\
    (forall fetch',
       (forall p, (1 <= Z.of_nat p <= max_pages)%Z -> fetch p = fetch' p) ->
       scrape_restaurants format_value fetch max_pages =
       scrape_restaurants format_value fetch' max_pages).
Proof.
  intros fetch max_pages. unfold scrape_restaurants. split.
  - intros page Hpage Hdead.
    replace (Z.to_nat max_pages)
      with (Z.to_nat (page - 1) + S (Z.to_nat (max_pages - page))) by lia.
    apply scrape_from_dead.
    now replace (1 + Z.to_nat (page - 1)) with (Z.to_nat page) by lia.
  - intros fetch' Hsame. apply scrape_from_same_pages.
    intros p Hp. apply Hsame. lia.
Qed.
End ScrapeLoop.

Lemma restaurant_record_needs_locality_witness :
  restaurant_record format_string (JDict [("name", JScalar (VStr "Udupi"))]) =
  Fail (PyKeyError "locality").
Proof.
  apply (proj1 (restaurant_record_needs_locality format_string)
           [("name", JScalar (VStr "Udupi"))] (JScalar (VStr "Udupi")));
    reflexivity.
Defined.

Lemma collect_failure_keeps_witness :
  collect format_string ([plain_restaurant] ++ JDict [] :: [plain_restaurant]) [] =
  ([plain_record], false).
Proof.
  apply (collect_failure_keeps format_string [plain_restaurant] (JDict [])
           [plain_restaurant] [] [plain_record] (PyKeyError "type"));
    reflexivity.
Defined.

Lemma collect_skips_other_types_witness :
  collect format_string ([plain_restaurant] ++ banner :: [plain_restaurant]) [] =
  collect format_string ([plain_restaurant] ++ [plain_restaurant]) [].
Proof.
  apply (collect_skips_other_types format_string [plain_restaurant] banner
           [plain_restaurant] [] (JScalar (VStr "banner")));
    reflexivity.
Defined.

Lemma scrape_restaurants_stops_witness :
  scrape_restaurants format_string two_pages 5 =
  scrape_restaurants format_string two_pages (3 - 1)%Z.
Proof.
  apply (proj1 (scrape_restaurants_stops format_string two_pages 5) 3%Z).
  - lia.
  - exact I.
Defined.

Lemma scrape_restaurants_more_pages_witness :
  scrape_restaurants format_string two_pages 0 = [].
Proof.
  apply (proj2 (scrape_restaurants_more_pages format_string two_pages 0)). lia.
Defined.

Lemma drop_duplicate_columns_keeps_first_witness :
  columns_named "price"
    (drop_duplicate_columns (renamed (DataFrame_of_records two_prices))) =
  [series "price" (renamed (DataFrame_of_records two_prices))].
Proof.
  apply (drop_duplicate_columns_keeps_first
           (renamed (DataFrame_of_records two_prices))).
  vm_compute. auto.
Defined.

(* ================================================================== *)
(** * The order of the rows that [process_menu_data] returns *)











(* ================================================================== *)
(** * The columns that [process_menu_data] hands through *)










(* ================================================================== *)
(** * [organize_columns] on repeated labels *)

Lemma columns_named_getitem_list_any c L df :
  columns_named c (getitem_list L df) =
  flat_map (fun l => if String.eqb l c then columns_named c df else []) L.
Proof.
  unfold columns_named, getitem_list; simpl.
  rewrite filter_flat_map. induction L as [|l L IH]; [reflexivity|].
  simpl. rewrite map_app, IH. f_equal.
  rewrite filter_label_twice. now destruct (String.eqb l c).
Qed.

Lemma length_flat_map_label {B : Type} c (X : list B) L :
  List.length (flat_map (fun l => if String.eqb l c then X else []) L) =
  List.length (filter (fun l => String.eqb l c) L) * List.length X.
Proof.
  induction L as [|l L IH]; [reflexivity|]. simpl.
  rewrite length_app, IH. destruct (String.eqb l c); simpl; lia.
Qed.

Lemma length_columns_named c df :
  List.length (columns_named c df) =
  List.length (filter (fun l => String.eqb l c) (columns df)).
Proof.
  unfold columns_named, columns. rewrite length_map.
  induction (cols df) as [|[k s] cs IH]; [reflexivity|]. simpl.
  destruct (String.eqb k c); simpl; now rewrite IH.
Qed.

Lemma count_label_NoDup c L :
  NoDup L ->
  List.length (filter (fun l => String.eqb l c) L) = if Py.mem c L then 1 else 0.
Proof.
  induction L as [|l L IH]; intro Hnd; [reflexivity|].
  inversion Hnd as [|? ? Hnotin Hnd']; subst. simpl.
  rewrite (String.eqb_sym c l).
  destruct (String.eqb_spec l c) as [->|Hne]; simpl.
  - rewrite (IH Hnd'). apply mem_false in Hnotin. now rewrite Hnotin.
  - now apply IH.
Qed.

(** X26.  On a frame with repeated labels [organize_columns] multiplies
    columns: a label outside [priority_cols] borne by [m] columns is borne
    by [m * m] columns of the result, while a label of [priority_cols]
    keeps its [m] columns. *)
Theorem organize_columns_repeated_labels :
  forall df c,
    List.length (columns_named c (organize_columns df)) =
    if Py.mem c priority_cols
    then List.length (columns_named c df)
    else List.length (columns_named c df) * List.length (columns_named c df).
Proof.
  intros df c. unfold organize_columns.
  set (existing := filter (fun col => Py.mem col (columns df)) priority_cols).
  rewrite columns_named_getitem_list_any, length_flat_map_label, filter_app, length_app.
  rewrite (count_label_NoDup c existing) by apply NoDup_filter, NoDup_priority_cols.
  rewrite filter_twice.
  destruct (Py.mem c priority_cols) eqn:Hprio.
  - rewrite (filter_none (fun x => negb (Py.mem x existing) && String.eqb x c)).
    + destruct (Py.mem c existing) eqn:Hex; simpl; [lia|].
      apply mem_false in Hex. unfold existing in Hex. rewrite filter_In, mem_In in Hex.
      apply mem_In in Hprio.
      assert (Hnot : ~ In c (columns df)) by tauto.
      rewrite (columns_named_absent c df Hnot). reflexivity.
    + intros x Hx. destruct (String.eqb_spec x c) as [->|]; [|apply andb_false_r].
      rewrite andb_true_r. apply negb_false_iff, mem_In.
      unfold existing. apply filter_In. split; [now apply mem_In|now apply mem_In].
  - assert (Hex : Py.mem c existing = false).
    { apply mem_false. unfold existing. rewrite filter_In.
      apply mem_false in Hprio. tauto. }
    rewrite Hex. simpl.
    rewrite (filter_ext (fun x => negb (Py.mem x existing) && String.eqb x c)
                        (fun l => String.eqb l c)).
    + now rewrite <- length_columns_named.
    + intro x. destruct (String.eqb_spec x c) as [->|]; [|apply andb_false_r].
      now rewrite Hex.
Qed.
